(** * pm2-zabbix: process tracking, change detection and reporting

    A shallow embedding of lib/ProcessState.js, lib/PM2Tracker.js,
    lib/PM2ZabbixMonitor.js and lib/ZabbixDataProvider.js.

    JavaScript objects used as dictionaries are association lists in
    property-creation order, promises are their settled outcome, and
    the external collaborators (PM2, the file system, pidusage, the
    Zabbix sender, the built-ins [Number] and [trim]) are the fields of
    a [World] record holding their answers.  Emissions of the tracker
    and batches handed to the sender are returned next to the new
    state, oldest first.

    Names and statuses are strings and [pm_id] is a natural number, as
    PM2 provides them; a property the caller leaves out is an [option]
    field holding [None]; the values of discovery macros are strings.
    Logging is left out. *)

From stdpp Require Import base decidable option list strings numbers pretty.
From Stdlib Require Import Ascii String QArith.

Local Close Scope Q_scope.
Local Open Scope string_scope.
Local Open Scope list_scope.

(** ** JavaScript values and plain objects *)

Module JS.

(** An IEEE double is kept as an exact rational, or NaN. *)
Inductive number := NaN | Num (q : Q).

Definition zero : number := Num 0.
Definition of_N (n : N) : number := Num (inject_Z (Z.of_N n)).

(** The primitive values this program hands to the sender. *)
Inductive value :=
| VUndefined
| VString (s : string)
| VNumber (n : number).

Definition of_option {A} (inj : A → value) (o : option A) : value :=
  match o with Some a => inj a | None => VUndefined end.

(** [x || y] on an optional string: undefined and the empty string
    are falsy. *)
Definition or_default (x : option string) (y : string) : string :=
  match x with
  | Some s => if String.eqb s "" then y else s
  | None => y
  end.

(** String concatenation with a possibly undefined left operand. *)
Definition to_string (x : option string) : string :=
  match x with Some s => s | None => "undefined" end.

Definition is_dash (c : ascii) : bool := Ascii.eqb c "-"%char.
Definition is_comma (c : ascii) : bool := Ascii.eqb c ","%char.

Fixpoint contains (p : ascii → bool) (s : string) : bool :=
  match s with
  | EmptyString => false
  | String c s' => p c || contains p s'
  end.

(** *** Array indices

    A property key is an array index when it is the canonical decimal
    form of an integer in [0, 2^32 - 2]. *)

Definition digit_of (c : ascii) : option N :=
  let n := N_of_ascii c in
  if (48 <=? n)%N && (n <=? 57)%N then Some (n - 48)%N else None.

Fixpoint parse_digits (acc : N) (s : string) : option N :=
  match s with
  | EmptyString => Some acc
  | String c s' =>
      match digit_of c with
      | Some d => parse_digits (acc * 10 + d)%N s'
      | None => None
      end
  end.

Definition array_index (s : string) : option N :=
  match s with
  | EmptyString => None
  | String c s' =>
      match digit_of c with
      | Some d =>
          if (d =? 0)%N && negb (String.eqb s' "") then None
          else match parse_digits d s' with
               | Some n => if (n <? 4294967295)%N then Some n else None
               | None => None
               end
      | None => None
      end
  end.

Definition is_index (s : string) : bool :=
  match array_index s with Some _ => true | None => false end.

Fixpoint insert_index (n : N) (k : string) (l : list (N * string))
  : list (N * string) :=
  match l with
  | [] => [(n, k)]
  | (m, k') :: l' =>
      if (n <=? m)%N then (n, k) :: l else (m, k') :: insert_index n k l'
  end.

Fixpoint index_keys (ks : list string) : list (N * string) :=
  match ks with
  | [] => []
  | k :: ks' =>
      match array_index k with
      | Some n => insert_index n k (index_keys ks')
      | None => index_keys ks'
      end
  end.

(** OrdinaryOwnPropertyKeys: array indices in ascending order, then
    the other string keys in creation order. *)
Definition own_keys (ks : list string) : list string :=
  map snd (index_keys ks) ++ List.filter (λ k, negb (is_index k)) ks.

(** *** Plain objects

    The own properties of an object literal, in creation order.
    [get] is the lookup [o[k]]: [None] stands for [undefined].  An
    absent key would be looked up on [Object.prototype]; none of its
    members is a string, and none of its names contains a dash. *)

Section Object.
Context {V : Type}.

Definition object := list (string * V).

Definition empty : object := [].

Fixpoint get (o : object) (k : string) : option V :=
  match o with
  | [] => None
  | (k', v) :: o' => if String.eqb k k' then Some v else get o' k
  end.

(** [o[k] = v]: an existing property keeps its place.  (No key this
    program writes is [__proto__].) *)
Fixpoint set (o : object) (k : string) (v : V) : object :=
  match o with
  | [] => [(k, v)]
  | (k', v') :: o' =>
      if String.eqb k k' then (k, v) :: o' else (k', v') :: set o' k v
  end.

(** [Object.keys(o)]. *)
Definition keys (o : object) : list string := own_keys (map fst o).

Definition wf (o : object) : Prop := NoDup (map fst o).

End Object.

Arguments object : clear implicits.

End JS.

(** ** Settled promises *)

(** A rejection reason: a falsy value, or an error object with its
    optional [code] property. *)
Inductive reason :=
| Falsy
| Error (code : option string).

(** Reading a property of [undefined]. *)
Definition TypeError : reason := Error None.

Inductive promise (A : Type) :=
| Fulfilled (a : A)
| Rejected (r : reason).

Arguments Fulfilled {A} a.
Arguments Rejected {A} r.

(** [p.then(f)]: a rejection skips [f]. *)
Definition then_ {A B} (p : promise A) (f : A → promise B) : promise B :=
  match p with
  | Fulfilled a => f a
  | Rejected r => Rejected r
  end.

(** [p.catch(h)]. *)
Definition catch_ {A} (p : promise A) (h : reason → promise A) : promise A :=
  match p with
  | Fulfilled a => Fulfilled a
  | Rejected r => h r
  end.

(** ** lib/ProcessState.js *)

(** Momentary resource usage, [{ cpu, memory }]. *)
Record usage := { cpu : JS.number; memory : JS.number }.

Module ProcessState.

(** The source data handed to the constructor.  A property the caller
    leaves out reads as [undefined]. *)
Record processObject := {
  src_name : string;
  src_status : string;
  src_resources : option usage;
  src_restarts : option JS.number;
  src_pid : option JS.number
}.

Record t := {
  name : string;
  status : string;
  resources : option usage;
  restarts : option JS.number;
  pid : option JS.number
}.

Definition new (processObject : processObject) : t :=
  {| name := src_name processObject;
     status := src_status processObject;
     resources := src_resources processObject;
     restarts := src_restarts processObject;
     pid := src_pid processObject |}.

(** [anotherState && anotherState.status === this.status], as the
    condition it is used for. *)
Definition equals (this : t) (anotherState : option t) : bool :=
  match anotherState with
  | Some another => String.eqb (status another) (status this)
  | None => false
  end.

End ProcessState.

(** ** The collaborators *)

(** An element of the list answered by [pm2.list()]. *)
Record pm2_env := { env_status : string; restart_time : JS.number }.

Record processEntry := {
  entry_name : string;
  entry_pm_id : N;
  entry_pm2_env : pm2_env;
  entry_monit : usage
}.

(** The [process] member of a [process:event] of the bus. *)
Record processDescription := {
  proc_name : string;
  proc_pm_id : N;
  proc_status : string;
  proc_resources : option usage;
  proc_restarts : option JS.number;
  proc_pid : option JS.number
}.

Record busEvent := { process : processDescription }.

(** The answers of everything outside the four modules. *)
Record World := {
  pm2_connectAsync : promise unit;
  pm2_launchBusAsync : promise unit;
  pm2_listAsync : promise (list processEntry);
  pm2_disconnectAsync : promise unit;
  env_HOME : option string;
  env_PM2_HOME : option string;
  fs_readFile : string → promise string;
  pidusage_stat : JS.number → promise (option usage);
  String_trim : string → string;
  Number : string → JS.number;
  sender_send : JS.object JS.value → promise unit
}.

(** ** lib/PM2Tracker.js *)

(** What [getProcessID] reads of its argument: [name] and [pm_id]. *)
Class Identified (A : Type) := {
  obj_name : A → string;
  obj_pm_id : A → N
}.

#[export] Instance processEntry_identified : Identified processEntry :=
  {| obj_name := entry_name; obj_pm_id := entry_pm_id |}.

#[export] Instance processDescription_identified
  : Identified processDescription :=
  {| obj_name := proc_name; obj_pm_id := proc_pm_id |}.

Module PM2Tracker.

Inductive bus := Bus.

(** The tracker's own fields, and the number of [process:event]
    handlers it has installed on the bus. *)
Record t := {
  _bus : option bus;
  _processes : JS.object ProcessState.t;
  bus_handlers : nat
}.

(** The payload of a [processStateChanged] emission. *)
Record changeEvent := {
  processID : string;
  oldState : option ProcessState.t;
  newState : ProcessState.t
}.

Definition new : t :=
  {| _bus := None; _processes := JS.empty; bus_handlers := 0 |}.

Definition getProcessID `{Identified A} (processObject : A) : string :=
  obj_name processObject +:+ "-" +:+ pretty (obj_pm_id processObject).

Definition entry_state (processEntry : processEntry) : ProcessState.t :=
  ProcessState.new
    {| ProcessState.src_name := entry_name processEntry;
       ProcessState.src_status := env_status (entry_pm2_env processEntry);
       ProcessState.src_resources := Some (entry_monit processEntry);
       ProcessState.src_restarts :=
         Some (restart_time (entry_pm2_env processEntry));
       ProcessState.src_pid := None |}.

Definition generateProcessMap (processList : list processEntry)
  : JS.object ProcessState.t :=
  fold_left
    (λ processes processEntry,
       JS.set processes (getProcessID processEntry) (entry_state processEntry))
    processList JS.empty.

Definition _loadProcessList (this : t) (processList : list processEntry) : t :=
  {| _bus := _bus this;
     _processes := generateProcessMap processList;
     bus_handlers := bus_handlers this |}.

(** [new ProcessState(event.process)]. *)
Definition event_state (p : processDescription) : ProcessState.t :=
  ProcessState.new
    {| ProcessState.src_name := proc_name p;
       ProcessState.src_status := proc_status p;
       ProcessState.src_resources := proc_resources p;
       ProcessState.src_restarts := proc_restarts p;
       ProcessState.src_pid := proc_pid p |}.

(** The new tracker and the emissions, oldest first. *)
Definition _handleProcessEvent (this : t) (event : busEvent)
  : t * list changeEvent :=
  let processID := getProcessID (process event) in
  let oldState := JS.get (_processes this) processID in
  let newState := event_state (process event) in
  let this' :=
    {| _bus := _bus this;
       _processes := JS.set (_processes this) processID newState;
       bus_handlers := bus_handlers this |} in
  let fires :=
    match oldState with
    | None => true
    | Some old => negb (ProcessState.equals old (Some newState))
    end in
  (this',
   if fires
   then [ {| processID := processID; oldState := oldState;
             newState := newState |} ]
   else []).

(** The handler run on a sequence of events, in bus order. *)
Fixpoint handle_all (this : t) (events : list busEvent)
  : t * list changeEvent :=
  match events with
  | [] => (this, [])
  | event :: rest =>
      let '(this1, out1) := _handleProcessEvent this event in
      let '(this2, out2) := handle_all this1 rest in
      (this2, out1 ++ out2)
  end.

(** The bus emits [process:event]: every installed handler runs.  The
    count is 1 after one [start()]; handlers of a repeated [start()]
    are taken to sit on that same bus. *)
Fixpoint dispatch (n : nat) (this : t) (event : busEvent)
  : t * list changeEvent :=
  match n with
  | O => (this, [])
  | S n' =>
      let '(this1, out1) := _handleProcessEvent this event in
      let '(this2, out2) := dispatch n' this1 event in
      (this2, out1 ++ out2)
  end.

Definition deliver (this : t) (event : busEvent) : t * list changeEvent :=
  dispatch (bus_handlers this) this event.

Fixpoint deliver_all (this : t) (events : list busEvent)
  : t * list changeEvent :=
  match events with
  | [] => (this, [])
  | event :: rest =>
      let '(this1, out1) := deliver this event in
      let '(this2, out2) := deliver_all this1 rest in
      (this2, out1 ++ out2)
  end.

(** [start()].  [inflight] are the bus events that arrive after the
    handler is installed and before [pm2.list()] answers. *)
Definition start (w : World) (inflight : list busEvent) (this : t)
  : promise unit * t * list changeEvent :=
  match pm2_connectAsync w with
  | Rejected r => (Rejected r, this, [])
  | Fulfilled _ =>
      match pm2_launchBusAsync w with
      | Rejected r => (Rejected r, this, [])
      | Fulfilled _ =>
          let this1 :=
            {| _bus := Some Bus;
               _processes := _processes this;
               bus_handlers := S (bus_handlers this) |} in
          let '(this2, out) := deliver_all this1 inflight in
          match pm2_listAsync w with
          | Rejected r => (Rejected r, this2, out)
          | Fulfilled processList =>
              (Fulfilled (), _loadProcessList this2 processList, out)
          end
      end
  end.

(** [stop()] hands back PM2's answer and touches nothing else. *)
Definition stop (w : World) (this : t) : promise unit * t :=
  (pm2_disconnectAsync w, this).

Definition getCachedProcessMap (this : t) : JS.object ProcessState.t :=
  _processes this.

Definition getProcessMap (w : World) : promise (JS.object ProcessState.t) :=
  then_ (pm2_listAsync w)
    (λ processList, Fulfilled (generateProcessMap processList)).

Definition online_state (usageInfo : usage) (PM2PID : JS.number)
  : ProcessState.t :=
  ProcessState.new
    {| ProcessState.src_name := "PM2";
       ProcessState.src_status := "online";
       ProcessState.src_resources := Some usageInfo;
       ProcessState.src_restarts := Some JS.zero;
       ProcessState.src_pid := Some PM2PID |}.

Definition offline_state : ProcessState.t :=
  ProcessState.new
    {| ProcessState.src_name := "PM2";
       ProcessState.src_status := "offline";
       ProcessState.src_resources :=
         Some {| cpu := JS.zero; memory := JS.zero |};
       ProcessState.src_restarts := Some JS.zero;
       ProcessState.src_pid := Some JS.zero |}.

(** [error && error.code === 'ENOENT']. *)
Definition is_ENOENT (error : reason) : bool :=
  match error with
  | Error (Some code) => String.eqb code "ENOENT"
  | _ => false
  end.

(** [process.env.HOME + '/' + (process.env.PM2_HOME || '.pm2')]. *)
Definition PM2_HOME (w : World) : string :=
  JS.to_string (env_HOME w) +:+ "/" +:+ JS.or_default (env_PM2_HOME w) ".pm2".

Definition getPM2State (w : World) : promise ProcessState.t :=
  then_ (fs_readFile w (PM2_HOME w +:+ "/pm2.pid"))
    (λ pidfileContent,
       let PM2PID := Number w (String_trim w pidfileContent) in
       then_
         (catch_ (pidusage_stat w PM2PID)
            (λ error,
               if is_ENOENT error then Fulfilled None else Rejected error))
         (λ usageInfo,
            match usageInfo with
            | Some usageInfo => Fulfilled (online_state usageInfo PM2PID)
            | None => Fulfilled offline_state
            end)).

End PM2Tracker.

(** ** lib/ZabbixDataProvider.js *)

Module ZabbixDataProvider.

(** A discovery item is a flat object of macro names and strings. *)
Definition item := JS.object string.

(** A batch of key values for the sender. *)
Definition batch := JS.object JS.value.

Record t := { _discoveryItems : list item }.

(** The envelope [{ data: ... }]. *)
Record discoveryData := { data : list item }.

(** [(discoveryItems || []).slice()]. *)
Definition new (discoveryItems : option (list item)) : t :=
  {| _discoveryItems := default [] discoveryItems |}.

(** The outcome, and the batches handed to the sender. *)
Definition send (w : World) (values : batch) : promise unit * list batch :=
  (sender_send w values, [values]).

Definition getDiscoveryData (this : t) : discoveryData :=
  {| data := _discoveryItems this |}.

Definition addDiscoveryItem (this : t) (item : item) : t :=
  {| _discoveryItems := _discoveryItems this ++ [item] |}.

(** [a === b] on two property reads. *)
Definition strict_eq (a b : option string) : bool :=
  match a, b with
  | None, None => true
  | Some x, Some y => String.eqb x y
  | _, _ => false
  end.

Definition removeMatching (removalSpecification discoveryItem : item) : bool :=
  negb
    (forallb
       (λ removalKey,
          strict_eq (JS.get removalSpecification removalKey)
                    (JS.get discoveryItem removalKey))
       (JS.keys removalSpecification)).

Definition removeDiscoveryItems (this : t) (removalSpecification : item) : t :=
  {| _discoveryItems :=
       List.filter (removeMatching removalSpecification)
                   (_discoveryItems this) |}.

(** The removal rule in the specification's words: every key present
    in the specification is present in the item with an equal value. *)
Definition spec_matches (matchSpec discoveryItem : item) : Prop :=
  ∀ key specValue,
    JS.get matchSpec key = Some specValue →
    JS.get discoveryItem key = Some specValue.

End ZabbixDataProvider.

(** ** lib/PM2ZabbixMonitor.js *)

Module PM2ZabbixMonitor.

Import ZabbixDataProvider.

Record options := {
  monitor : bool;
  processListInterval : option N;
  processManagerInterval : option N
}.

(** [interval || 15000]: undefined and 0 are falsy. *)
Definition interval_or_default (interval : option N) : N :=
  match interval with
  | Some 0%N | None => 15000%N
  | Some n => n
  end.

Inductive timer :=
| ProcessListTimer (interval : N)
| ProcessManagerTimer (interval : N).

(** The monitor's fields, the number of [processStateChanged]
    listeners it has put on the tracker, and the armed timers. *)
Record t := {
  _tracker : PM2Tracker.t;
  _dataProvider : ZabbixDataProvider.t;
  _options : options;
  listeners : nat;
  timers : list timer
}.

Definition new (tracker : PM2Tracker.t) (dataProvider : ZabbixDataProvider.t)
    (opts : option options) : t :=
  let o := default {| monitor := false; processListInterval := None;
                      processManagerInterval := None |} opts in
  let o' :=
    {| monitor := monitor o;
       processListInterval :=
         Some (interval_or_default (processListInterval o));
       processManagerInterval :=
         Some (interval_or_default (processManagerInterval o)) |} in
  {| _tracker := tracker;
     _dataProvider := dataProvider;
     _options := o';
     listeners := if monitor o' then 1 else 0;
     timers := [] |}.

Definition getDataKey (processID : string) (processState : ProcessState.t)
    (dataItem : string) : string :=
  "pm2.processes[" +:+ processID +:+ "," +:+ dataItem +:+ "]".

Definition getManagerKey (dataItem : string) : string :=
  "pm2." +:+ dataItem.

(** The listener of [_initListeners]: one single-key batch. *)
Definition statusObject (changeEvent : PM2Tracker.changeEvent) : batch :=
  JS.set JS.empty
    (getDataKey (PM2Tracker.processID changeEvent)
                (PM2Tracker.newState changeEvent) "status")
    (JS.VString (ProcessState.status (PM2Tracker.newState changeEvent))).

(** The batches the installed listeners send for the emissions. *)
Definition forward (this : t) (emitted : list PM2Tracker.changeEvent)
  : list batch :=
  flat_map (λ changeEvent, replicate (listeners this) (statusObject changeEvent))
           emitted.

Definition discoveryItem (processID : string) (processState : ProcessState.t)
  : item :=
  [ ("{#PROCESS_ID}", processID);
    ("{#PROCESS_NAME}", ProcessState.name processState) ].

(** [Object.keys(processMap).forEach(registerProcessForDiscovery)].
    A key of [Object.keys] is an own property, so the lookup is never
    undefined. *)
Definition registerProcesses (processMap : JS.object ProcessState.t)
    (dataProvider : ZabbixDataProvider.t) : ZabbixDataProvider.t :=
  fold_left
    (λ provider processID,
       match JS.get processMap processID with
       | Some processState =>
           addDiscoveryItem provider (discoveryItem processID processState)
       | None => provider
       end)
    (JS.keys processMap) dataProvider.

(** [start()]: the outcome, the monitor afterwards and the batches the
    real-time listener sent meanwhile. *)
Definition start (w : World) (inflight : list busEvent) (this : t)
  : promise unit * t * list batch :=
  let '(started, tracker, emitted) :=
    PM2Tracker.start w inflight (_tracker this) in
  let sent := forward this emitted in
  match started with
  | Rejected r =>
      (Rejected r,
       {| _tracker := tracker; _dataProvider := _dataProvider this;
          _options := _options this; listeners := listeners this;
          timers := timers this |},
       sent)
  | Fulfilled _ =>
      let processMap := PM2Tracker.getCachedProcessMap tracker in
      let provider := registerProcesses processMap (_dataProvider this) in
      let armed :=
        if monitor (_options this)
        then [ ProcessListTimer
                 (default 15000%N (processListInterval (_options this)));
               ProcessManagerTimer
                 (default 15000%N (processManagerInterval (_options this))) ]
        else [] in
      (Fulfilled (),
       {| _tracker := tracker; _dataProvider := provider;
          _options := _options this; listeners := listeners this;
          timers := timers this ++ armed |},
       sent)
  end.

(** The four assignments of [sendProcessList] for one process.
    Reading [cpu] of an undefined [resources] throws. *)
Definition addProcess (dataObject : batch) (processID : string)
    (processState : ProcessState.t) : option batch :=
  match ProcessState.resources processState with
  | None => None
  | Some res =>
      let d1 :=
        JS.set dataObject (getDataKey processID processState "status")
          (JS.VString (ProcessState.status processState)) in
      let d2 :=
        JS.set d1 (getDataKey processID processState "cpu")
          (JS.VNumber (cpu res)) in
      let d3 :=
        JS.set d2 (getDataKey processID processState "memory")
          (JS.VNumber (memory res)) in
      Some
        (JS.set d3 (getDataKey processID processState "restarts")
           (JS.of_option JS.VNumber (ProcessState.restarts processState)))
  end.

Fixpoint addProcesses (processMap : JS.object ProcessState.t)
    (processIDs : list string) (dataObject : batch) : option batch :=
  match processIDs with
  | [] => Some dataObject
  | processID :: rest =>
      match JS.get processMap processID with
      | None => None
      | Some processState =>
          match addProcess dataObject processID processState with
          | None => None
          | Some dataObject' => addProcesses processMap rest dataObject'
          end
      end
  end.

Definition sendProcessList (w : World) : promise unit * list batch :=
  match PM2Tracker.getProcessMap w with
  | Rejected r => (Rejected r, [])
  | Fulfilled processMap =>
      match addProcesses processMap (JS.keys processMap) JS.empty with
      | None => (Rejected TypeError, [])
      | Some dataObject => send w dataObject
      end
  end.

Definition managerObject (processState : ProcessState.t) : option batch :=
  match ProcessState.resources processState with
  | None => None
  | Some res =>
      let d1 :=
        JS.set JS.empty (getManagerKey "status")
          (JS.VString (ProcessState.status processState)) in
      let d2 := JS.set d1 (getManagerKey "cpu") (JS.VNumber (cpu res)) in
      let d3 := JS.set d2 (getManagerKey "memory") (JS.VNumber (memory res)) in
      Some
        (JS.set d3 (getManagerKey "pid")
           (JS.of_option JS.VNumber (ProcessState.pid processState)))
  end.

Definition sendPM2Status (w : World) : promise unit * list batch :=
  match PM2Tracker.getPM2State w with
  | Rejected r => (Rejected r, [])
  | Fulfilled processState =>
      match managerObject processState with
      | None => (Rejected TypeError, [])
      | Some dataObject => send w dataObject
      end
  end.

(** A [process:event] of the bus on a monitor: the tracker's handlers
    run, and the monitor's listeners send a batch for each emission.
    Neither the provider nor the timers are touched. *)
Definition receive (this : t) (event : busEvent) : t * list batch :=
  let '(tracker, emitted) := PM2Tracker.deliver (_tracker this) event in
  ({| _tracker := tracker; _dataProvider := _dataProvider this;
      _options := _options this; listeners := listeners this;
      timers := timers this |},
   forward this emitted).

End PM2ZabbixMonitor.

(** ** The batches, spelled out *)

Module Batch.

Import PM2ZabbixMonitor.

(** The data items of a managed process. *)
Definition fields : list string := ["status"; "cpu"; "memory"; "restarts"].

(** The four entries [sendProcessList] writes for one process, in the
    order it writes them. *)
Definition entries (id : string) (st : ProcessState.t)
  : ZabbixDataProvider.batch :=
  match ProcessState.resources st with
  | Some res =>
      [ (getDataKey id st "status", JS.VString (ProcessState.status st));
        (getDataKey id st "cpu", JS.VNumber (cpu res));
        (getDataKey id st "memory", JS.VNumber (memory res));
        (getDataKey id st "restarts",
         JS.of_option JS.VNumber (ProcessState.restarts st)) ]
  | None => []
  end.

Definition entries_of (m : JS.object ProcessState.t) (id : string)
  : ZabbixDataProvider.batch :=
  match JS.get m id with Some st => entries id st | None => [] end.

(** The batch of a daemon that is not there. *)
Definition offline_batch : ZabbixDataProvider.batch :=
  [ ("pm2.status", JS.VString "offline");
    ("pm2.cpu", JS.VNumber JS.zero);
    ("pm2.memory", JS.VNumber JS.zero);
    ("pm2.pid", JS.VNumber JS.zero) ].

End Batch.

(** ** Sample data *)

Module Sample.

Definition entry (name : string) (pm_id : N) (status : string) : processEntry :=
  {| entry_name := name;
     entry_pm_id := pm_id;
     entry_pm2_env := {| env_status := status; restart_time := JS.of_N 2 |};
     entry_monit := {| cpu := JS.Num (5 # 2); memory := JS.of_N 52428800 |} |}.

Definition web0 : processEntry := entry "web" 0 "online".
Definition web1 : processEntry := entry "web" 1 "online".
Definition web0_stopped : processEntry := entry "web" 0 "stopped".

(** A bus event as PM2 sends it: no resources, restarts or pid. *)
Definition event (name : string) (pm_id : N) (status : string) : busEvent :=
  {| process :=
       {| proc_name := name; proc_pm_id := pm_id; proc_status := status;
          proc_resources := None; proc_restarts := None;
          proc_pid := None |} |}.

Definition web0_stopping : busEvent := event "web" 0 "stopping".
Definition api7_online : busEvent := event "api" 7 "online".

Definition pm2_usage : usage :=
  {| cpu := JS.Num (1 # 2); memory := JS.of_N 41943040 |}.

(** PM2 is up: pid file [/home/app/.pm2/pm2.pid] holds 4242. *)
Definition up : World :=
  {| pm2_connectAsync := Fulfilled ();
     pm2_launchBusAsync := Fulfilled ();
     pm2_listAsync := Fulfilled [web0; web1];
     pm2_disconnectAsync := Fulfilled ();
     env_HOME := Some "/home/app";
     env_PM2_HOME := None;
     fs_readFile := λ path,
       if String.eqb path "/home/app/.pm2/pm2.pid" then Fulfilled "4242"
       else Rejected (Error (Some "ENOENT"));
     pidusage_stat := λ _, Fulfilled (Some pm2_usage);
     String_trim := λ s, s;
     Number := λ s,
       if String.eqb s "4242" then JS.of_N 4242 else JS.NaN;
     sender_send := λ _, Fulfilled () |}.

Definition with_list (processList : list processEntry) (w : World) : World :=
  {| pm2_connectAsync := pm2_connectAsync w;
     pm2_launchBusAsync := pm2_launchBusAsync w;
     pm2_listAsync := Fulfilled processList;
     pm2_disconnectAsync := pm2_disconnectAsync w;
     env_HOME := env_HOME w;
     env_PM2_HOME := env_PM2_HOME w;
     fs_readFile := fs_readFile w;
     pidusage_stat := pidusage_stat w;
     String_trim := String_trim w;
     Number := Number w;
     sender_send := sender_send w |}.

(** The pid file is left over, its process is gone. *)
Definition stale_pidfile : World :=
  {| pm2_connectAsync := pm2_connectAsync up;
     pm2_launchBusAsync := pm2_launchBusAsync up;
     pm2_listAsync := pm2_listAsync up;
     pm2_disconnectAsync := pm2_disconnectAsync up;
     env_HOME := env_HOME up;
     env_PM2_HOME := env_PM2_HOME up;
     fs_readFile := fs_readFile up;
     pidusage_stat := λ _, Rejected (Error (Some "ENOENT"));
     String_trim := String_trim up;
     Number := Number up;
     sender_send := sender_send up |}.

(** There is no pid file. *)
Definition no_pidfile : World :=
  {| pm2_connectAsync := pm2_connectAsync up;
     pm2_launchBusAsync := pm2_launchBusAsync up;
     pm2_listAsync := pm2_listAsync up;
     pm2_disconnectAsync := pm2_disconnectAsync up;
     env_HOME := env_HOME up;
     env_PM2_HOME := env_PM2_HOME up;
     fs_readFile := λ _, Rejected (Error (Some "ENOENT"));
     pidusage_stat := λ _, Rejected (Error (Some "ENOENT"));
     String_trim := String_trim up;
     Number := Number up;
     sender_send := sender_send up |}.

(** A tracker started on [up], then stopped. *)
Definition started : PM2Tracker.t := (PM2Tracker.start up [] PM2Tracker.new).1.2.
Definition stopped : PM2Tracker.t := (PM2Tracker.stop up started).2.

(** The monitor of monitor.js, over a fresh tracker and provider. *)
Definition fresh_monitor (monitor : bool) : PM2ZabbixMonitor.t :=
  PM2ZabbixMonitor.new PM2Tracker.new (ZabbixDataProvider.new None)
    (Some {| PM2ZabbixMonitor.monitor := monitor;
             PM2ZabbixMonitor.processListInterval := None;
             PM2ZabbixMonitor.processManagerInterval := None |}).

End Sample.

(** ** Reference behaviour *)

Module Reference.

(** The statuses worth a notification: each one that differs from the
    status before it. *)
Fixpoint status_changes (previous : option string) (statuses : list string)
  : list string :=
  match statuses with
  | [] => []
  | s :: rest =>
      (match previous with
       | Some p => if String.eqb p s then [] else [s]
       | None => [s]
       end) ++ status_changes (Some s) rest
  end.

(** A cache all of whose keys are identities: no key twice, a dash in
    each. *)
Definition identity_keys (o : JS.object ProcessState.t) : Prop :=
  JS.wf o ∧ Forall (λ k, JS.contains JS.is_dash k = true) (map fst o).

End Reference.

(** ** More sample data *)

Module Cases.

Definition refused : reason := Error (Some "ECONNREFUSED").
Definition denied : reason := Error (Some "EPERM").

(** The PM2 daemon cannot be reached. *)
Definition unreachable : World :=
  {| pm2_connectAsync := Rejected refused;
     pm2_launchBusAsync := pm2_launchBusAsync Sample.up;
     pm2_listAsync := pm2_listAsync Sample.up;
     pm2_disconnectAsync := pm2_disconnectAsync Sample.up;
     env_HOME := env_HOME Sample.up;
     env_PM2_HOME := env_PM2_HOME Sample.up;
     fs_readFile := fs_readFile Sample.up;
     pidusage_stat := pidusage_stat Sample.up;
     String_trim := String_trim Sample.up;
     Number := Number Sample.up;
     sender_send := sender_send Sample.up |}.

(** The list query fails; the sender refuses every batch. *)
Definition failing : World :=
  {| pm2_connectAsync := pm2_connectAsync Sample.up;
     pm2_launchBusAsync := pm2_launchBusAsync Sample.up;
     pm2_listAsync := Rejected refused;
     pm2_disconnectAsync := pm2_disconnectAsync Sample.up;
     env_HOME := env_HOME Sample.up;
     env_PM2_HOME := env_PM2_HOME Sample.up;
     fs_readFile := fs_readFile Sample.up;
     pidusage_stat := λ _, Rejected denied;
     String_trim := String_trim Sample.up;
     Number := Number Sample.up;
     sender_send := λ _, Rejected refused |}.

(** The monitor of monitor.js in monitor mode, started on [Sample.up]. *)
Definition monitoring : PM2ZabbixMonitor.t :=
  (PM2ZabbixMonitor.start Sample.up [] (Sample.fresh_monitor true)).1.2.

End Cases.

(** * Properties *)

(** ** Plain objects *)

Section ObjectFacts.
Context {V : Type}.
Implicit Types (o : JS.object V) (k : string) (v : V).

Lemma get_set_eq o k v : JS.get (JS.set o k v) k = Some v.
Proof.
  induction o as [|[k' v'] o IH]; simpl.
  - by rewrite String.eqb_refl.
  - destruct (String.eqb k k') eqn:E; simpl; rewrite ?String.eqb_refl, ?E; auto.
Qed.

Lemma get_set_ne o k k' v : k ≠ k' → JS.get (JS.set o k v) k' = JS.get o k'.
Proof.
  intros Hne. induction o as [|[k0 v0] o IH]; simpl.
  - destruct (String.eqb_spec k' k); congruence.
  - destruct (String.eqb_spec k k0) as [->|]; simpl.
    + destruct (String.eqb_spec k' k0); congruence.
    + destruct (String.eqb_spec k' k0); auto.
Qed.

Lemma get_is_Some o k : is_Some (JS.get o k) ↔ In k (map fst o).
Proof.
  induction o as [|[k' v'] o IH]; simpl.
  - split; [intros [? ?]; discriminate | tauto].
  - destruct (String.eqb_spec k k') as [->|Hne].
    + split; eauto.
    + rewrite IH. split; [tauto | intros [?|?]; congruence].
Qed.

Lemma get_None o k : JS.get o k = None ↔ ¬ In k (map fst o).
Proof. rewrite <- get_is_Some, eq_None_not_Some. tauto. Qed.

(** An assignment to a new key appends it; to an old key, keeps the
    order of the keys. *)
Lemma set_fresh o k v : JS.get o k = None → JS.set o k v = o ++ [(k, v)].
Proof.
  induction o as [|[k' v'] o IH]; simpl; [done|].
  destruct (String.eqb k k'); [discriminate|].
  intros H. by rewrite IH.
Qed.

Lemma set_keys_present o k v :
  is_Some (JS.get o k) → map fst (JS.set o k v) = map fst o.
Proof.
  induction o as [|[k' v'] o IH]; simpl.
  - intros [? ?]; discriminate.
  - destruct (String.eqb_spec k k') as [->|Hne]; simpl; [done|].
    intros H. by rewrite IH.
Qed.

Lemma wf_set o k v : JS.wf o → JS.wf (JS.set o k v).
Proof.
  unfold JS.wf. intros Hwf.
  destruct (JS.get o k) eqn:E.
  - by rewrite set_keys_present.
  - rewrite set_fresh, map_app by done. simpl.
    apply NoDup_app. split_and!; [done | | apply NoDup_singleton].
    intros x Hx Hx'. apply list_elem_of_singleton in Hx' as ->.
    apply get_None in E. apply E. by apply list_elem_of_In.
Qed.

End ObjectFacts.

(** ** Property order *)

Lemma digit_of_not_dash c d : JS.digit_of c = Some d → JS.is_dash c = false.
Proof.
  unfold JS.digit_of, JS.is_dash.
  destruct (Ascii.eqb_spec c "-"%char) as [->|]; [|done].
  vm_compute. discriminate.
Qed.

Lemma parse_digits_no_dash s acc n :
  JS.parse_digits acc s = Some n → JS.contains JS.is_dash s = false.
Proof.
  revert acc. induction s as [|c s IH]; simpl; [done|].
  intros acc. destruct (JS.digit_of c) eqn:E; [|discriminate].
  intros H. rewrite (digit_of_not_dash _ _ E). simpl. eauto.
Qed.

(** A key with a dash is no array index. *)
Lemma dash_not_index s : JS.contains JS.is_dash s = true → JS.is_index s = false.
Proof.
  unfold JS.is_index, JS.array_index.
  destruct s as [|c s]; simpl; [done|].
  destruct (JS.digit_of c) eqn:E; [|done].
  rewrite (digit_of_not_dash _ _ E). simpl. intros Hs.
  destruct (_ && _); [done|].
  destruct (JS.parse_digits n s) eqn:P; [|done].
  apply parse_digits_no_dash in P. congruence.
Qed.

Lemma index_keys_none ks :
  Forall (λ k, JS.is_index k = false) ks → JS.index_keys ks = [].
Proof.
  induction 1 as [|k ks Hk _ IH]; simpl; [done|].
  unfold JS.is_index in Hk. destruct (JS.array_index k); [discriminate|done].
Qed.

(** Without array indices, [Object.keys] is the creation order. *)
Lemma own_keys_creation_order ks :
  Forall (λ k, JS.is_index k = false) ks → JS.own_keys ks = ks.
Proof.
  intros H. unfold JS.own_keys. rewrite index_keys_none by done. simpl.
  induction H as [|k ks Hk _ IH]; simpl; [done|].
  rewrite Hk. simpl. by rewrite IH.
Qed.

Lemma In_insert_index n k l x :
  In x (JS.insert_index n k l) ↔ x = (n, k) ∨ In x l.
Proof.
  induction l as [|[m k'] l IH]; simpl; [intuition congruence|].
  destruct (n <=? m)%N; simpl; [intuition congruence|].
  rewrite IH. intuition congruence.
Qed.

Lemma In_index_keys ks n k :
  In (n, k) (JS.index_keys ks) ↔ In k ks ∧ JS.array_index k = Some n.
Proof.
  induction ks as [|k0 ks IH]; simpl; [tauto|].
  destruct (JS.array_index k0) eqn:E.
  - rewrite In_insert_index, IH. split.
    + intros [[= -> ->]|[? ?]]; auto.
    + intros [[->|?] ?]; [left; congruence | auto].
  - rewrite IH. split; [tauto|]. intros [[->|?] ?]; [congruence|auto].
Qed.

(** [Object.keys] lists exactly the own properties. *)
Lemma In_own_keys ks k : In k (JS.own_keys ks) ↔ In k ks.
Proof.
  unfold JS.own_keys. rewrite in_app_iff, in_map_iff, filter_In. split.
  - intros [[[n k'] [<- H]]|[? _]]; [|done]. by apply In_index_keys in H as [? _].
  - intros H. unfold JS.is_index. destruct (JS.array_index k) eqn:E.
    + left. exists (n, k). split; [done|]. by apply In_index_keys.
    + by right.
Qed.

Lemma keys_get {V} (o : JS.object V) k : In k (JS.keys o) → is_Some (JS.get o k).
Proof. unfold JS.keys. rewrite In_own_keys. apply get_is_Some. Qed.

(** ** The tracker's event handler *)

Section Handler.
Import PM2Tracker.
Implicit Types (this : PM2Tracker.t) (event : busEvent).

Lemma handle_processes this event :
  _processes (_handleProcessEvent this event).1
  = JS.set (_processes this) (getProcessID (process event))
      (event_state (process event)).
Proof. reflexivity. Qed.

Lemma handle_all_snoc this events event :
  (handle_all this (events ++ [event])).1
  = (_handleProcessEvent (handle_all this events).1 event).1.
Proof.
  revert this.
  induction events as [|e events IH]; intros this; cbn [handle_all app fst].
  - by destruct (_handleProcessEvent this event).
  - destruct (_handleProcessEvent this e) as [this1 out1].
    specialize (IH this1).
    destruct (handle_all this1 (events ++ [event])) as [a b].
    destruct (handle_all this1 events) as [c d]. exact IH.
Qed.

(** C1: a notification is emitted for a bus event exactly when the
    status of the new state differs from the status of the entry cached
    for that identity just before; with no cached entry it always
    fires, and with an unchanged status it never does, whatever the
    cpu, memory and restart count are. *)
Theorem notification_iff_status_changed
    (t0 : PM2Tracker.t) (before : list busEvent) (event : busEvent) :
  let this := (handle_all t0 before).1 in
  let id := getProcessID (process event) in
  let previous := JS.get (_processes this) id in
  let emitted := (_handleProcessEvent this event).2 in
  (emitted ≠ []
   ↔ ProcessState.status <$> previous ≠ Some (proc_status (process event)))
  ∧ (emitted ≠ [] →
     emitted = [ {| processID := id; oldState := previous;
                    newState := event_state (process event) |} ])
  ∧ (previous = None → emitted ≠ [])
  ∧ (∀ old, previous = Some old →
       ProcessState.status old = proc_status (process event) →
       emitted = []).
Proof.
  intros this id previous emitted.
  unfold emitted, _handleProcessEvent. fold id. fold previous.
  destruct previous as [old|]; simpl.
  - destruct (String.eqb_spec (proc_status (process event))
                              (ProcessState.status old)) as [Heq|Hne]; simpl.
    + split_and!; try done.
      split; [done|]. intros H. exfalso. apply H. by rewrite Heq.
    + split_and!; try done.
      * split; [|done]. intros _ [= H]. by apply Hne.
      * intros o [= <-] H. by destruct Hne.
  - split_and!; done.
Qed.

(** C2: the handler replaces the cache entry of the event's identity
    whether or not it notifies, and leaves the other entries alone; so
    after any events the entry of the last event's identity is the
    state built from that event. *)
Theorem cache_holds_last_event
    (t0 : PM2Tracker.t) (events : list busEvent) (event : busEvent) :
  let id := getProcessID (process event) in
  let built := event_state (process event) in
  JS.get (_processes (_handleProcessEvent t0 event).1) id = Some built
  ∧ (∀ other, other ≠ id →
       JS.get (_processes (_handleProcessEvent t0 event).1) other
       = JS.get (_processes t0) other)
  ∧ JS.get (_processes (handle_all t0 (events ++ [event])).1) id = Some built
  ∧ (Forall (λ e, getProcessID (process e) = id) events →
     ∀ other, other ≠ id →
       JS.get (_processes (handle_all t0 (events ++ [event])).1) other
       = JS.get (_processes t0) other).
Proof.
  intros id built. split_and!.
  - rewrite handle_processes. apply get_set_eq.
  - intros other Hne. rewrite handle_processes. by apply get_set_ne.
  - rewrite handle_all_snoc, handle_processes. apply get_set_eq.
  - intros Hall other Hne.
    rewrite handle_all_snoc, handle_processes, get_set_ne by done.
    revert t0.
    induction Hall as [|e events He _ IH]; intros t0; cbn [handle_all];
      [done|].
    destruct (_handleProcessEvent t0 e) as [t1 out1] eqn:E1.
    specialize (IH t1). destruct (handle_all t1 events) as [t2 out2].
    cbn [fst] in *. rewrite IH.
    replace t1 with (_handleProcessEvent t0 e).1 by (by rewrite E1).
    rewrite handle_processes, get_set_ne; [done|]. by rewrite He.
Qed.

(** C10: a notification carries as its new state the entry the cache
    holds under its identity when it is emitted, and as its old state
    the entry this event replaced (none on a first observation). *)
Theorem notification_agrees_with_cache
    (this : PM2Tracker.t) (event : busEvent) (n : changeEvent) :
  In n (_handleProcessEvent this event).2 →
  processID n = getProcessID (process event)
  ∧ JS.get (_processes (_handleProcessEvent this event).1) (processID n)
    = Some (newState n)
  ∧ oldState n = JS.get (_processes this) (processID n).
Proof.
  intros Hin. rewrite handle_processes.
  unfold _handleProcessEvent in Hin. simpl in Hin.
  destruct (if match JS.get _ _ with None => true | Some _ => _ end
            then _ else _) as [|n' l] eqn:E in Hin; [done|].
  destruct (match JS.get _ _ with None => true | Some _ => _ end) in E;
    [|discriminate].
  injection E as <- <-. destruct Hin as [<-|[]]. simpl.
  split_and!; [done | apply get_set_eq | done].
Qed.

End Handler.

(** ** Identities and the process map *)

Section ProcessMap.
Import PM2Tracker.

Lemma contains_app p a b :
  JS.contains p (a +:+ b) = JS.contains p a || JS.contains p b.
Proof.
  induction a as [|c a IH]; simpl; [done|].
  by rewrite IH, orb_assoc.
Qed.

(** An identity always has a dash, so it is never an array index. *)
Lemma getProcessID_dash `{Identified A} (x : A) :
  JS.contains JS.is_dash (getProcessID x) = true.
Proof.
  unfold getProcessID. rewrite !contains_app. simpl. apply orb_true_r.
Qed.

Lemma generateProcessMap_snoc l e :
  generateProcessMap (l ++ [e])
  = JS.set (generateProcessMap l) (getProcessID e) (entry_state e).
Proof. unfold generateProcessMap. by rewrite fold_left_app. Qed.

Lemma generateProcessMap_lookup l id st :
  JS.get (generateProcessMap l) id = Some st →
  ∃ e, In e l ∧ getProcessID e = id ∧ st = entry_state e.
Proof.
  revert st. induction l as [|e l IH] using rev_ind; intros st; [done|].
  rewrite generateProcessMap_snoc.
  destruct (decide (getProcessID e = id)) as [<-|Hne].
  - rewrite get_set_eq. intros [= <-]. exists e.
    rewrite in_app_iff. simpl. auto.
  - rewrite get_set_ne by done. intros H.
    destruct (IH _ H) as (e' & ? & ? & ?). exists e'.
    rewrite in_app_iff. auto.
Qed.

Lemma generateProcessMap_listed l e :
  In e l → is_Some (JS.get (generateProcessMap l) (getProcessID e)).
Proof.
  induction l as [|e' l IH] using rev_ind; [done|].
  rewrite generateProcessMap_snoc, in_app_iff. simpl.
  destruct (decide (getProcessID e' = getProcessID e)) as [->|Hne].
  - rewrite get_set_eq. eauto.
  - rewrite get_set_ne by done. intros [?|[->|[]]]; [auto|done].
Qed.

Lemma generateProcessMap_wf l : JS.wf (generateProcessMap l).
Proof.
  induction l as [|e l IH] using rev_ind; [apply NoDup_nil_2|].
  rewrite generateProcessMap_snoc. by apply wf_set.
Qed.

(** Distinct identities: one entry per descriptor, in list order. *)
Lemma generateProcessMap_distinct l :
  NoDup (map getProcessID l) →
  generateProcessMap l = map (λ e, (getProcessID e, entry_state e)) l.
Proof.
  induction l as [|e l IH] using rev_ind; [done|].
  rewrite map_app. simpl. intros Hnd.
  apply NoDup_app in Hnd as (Hl & Hfresh & _).
  rewrite generateProcessMap_snoc, map_app. simpl.
  rewrite <- IH by done. apply set_fresh.
  apply get_None. intros Hin. apply get_is_Some in Hin as [st Hst].
  apply generateProcessMap_lookup in Hst as (e' & He' & Hid & _).
  apply (Hfresh (getProcessID e)); [|apply list_elem_of_here].
  rewrite <- Hid. apply list_elem_of_In, in_map, He'.
Qed.

(** [Object.keys] of a process map is its creation order. *)
Lemma generateProcessMap_keys l :
  JS.keys (generateProcessMap l) = map fst (generateProcessMap l).
Proof.
  apply own_keys_creation_order, Forall_forall. intros k Hk.
  apply list_elem_of_In, get_is_Some in Hk as [st Hst].
  apply generateProcessMap_lookup in Hst as (e & _ & <- & _).
  apply dash_not_index, getProcessID_dash.
Qed.

End ProcessMap.

(** ** The bus connection: start, stop, delivery *)

Section Connection.
Import PM2Tracker.

Lemma set_same {V} (o : JS.object V) k v :
  JS.set (JS.set o k v) k v = JS.set o k v.
Proof.
  induction o as [|[k' v'] o IH]; simpl.
  - by rewrite String.eqb_refl.
  - destruct (String.eqb k k') eqn:E; simpl.
    + by rewrite String.eqb_refl.
    + by rewrite E, IH.
Qed.

(** Handling the same event again changes nothing and is silent. *)
Lemma handle_again this event :
  _handleProcessEvent (_handleProcessEvent this event).1 event
  = ((_handleProcessEvent this event).1, []).
Proof.
  unfold _handleProcessEvent. cbn [fst _processes _bus bus_handlers].
  rewrite get_set_eq, set_same. simpl. by rewrite String.eqb_refl.
Qed.

Lemma dispatch_handled n this event :
  dispatch n (_handleProcessEvent this event).1 event
  = ((_handleProcessEvent this event).1, []).
Proof.
  induction n as [|n IH]; cbn [dispatch]; [done|].
  by rewrite handle_again, IH.
Qed.

(** With a handler installed, delivery is one run of the handler. *)
Lemma deliver_installed this event :
  bus_handlers this ≠ 0 → deliver this event = _handleProcessEvent this event.
Proof.
  unfold deliver. destruct (bus_handlers this) as [|n]; [done|]. intros _.
  cbn [dispatch].
  destruct (_handleProcessEvent this event) as [this1 out1] eqn:E.
  replace this1 with (_handleProcessEvent this event).1 by (by rewrite E).
  rewrite dispatch_handled, E. simpl. by rewrite app_nil_r.
Qed.

Lemma dispatch_handlers n this event :
  bus_handlers (dispatch n this event).1 = bus_handlers this.
Proof.
  revert this. induction n as [|n IH]; intros this; [done|].
  cbn [dispatch].
  destruct (_handleProcessEvent this event) as [this1 out1] eqn:E.
  specialize (IH this1). destruct (dispatch n this1 event) as [this2 out2].
  cbn [fst] in *. rewrite IH.
  by replace this1 with (_handleProcessEvent this event).1 by (by rewrite E).
Qed.

Lemma deliver_all_handlers this events :
  bus_handlers (deliver_all this events).1 = bus_handlers this.
Proof.
  revert this. induction events as [|e events IH]; intros this; [done|].
  cbn [deliver_all].
  destruct (deliver this e) as [this1 out1] eqn:E.
  specialize (IH this1). destruct (deliver_all this1 events) as [this2 out2].
  cbn [fst] in *. rewrite IH.
  replace this1 with (deliver this e).1 by (by rewrite E).
  apply dispatch_handlers.
Qed.

(** What a fulfilled [start()] leaves behind. *)
Lemma start_fulfilled w inflight this :
  (start w inflight this).1.1 = Fulfilled () →
  ∃ processList,
    pm2_listAsync w = Fulfilled processList
    ∧ _processes (start w inflight this).1.2 = generateProcessMap processList
    ∧ bus_handlers (start w inflight this).1.2 = S (bus_handlers this).
Proof.
  unfold start.
  destruct (pm2_connectAsync w); [|done].
  destruct (pm2_launchBusAsync w); [|done].
  destruct (deliver_all _ inflight) as [this2 out] eqn:E.
  destruct (pm2_listAsync w) as [processList|]; [|done].
  intros _. exists processList. split_and!; [done..|].
  cbn. replace this2 with (deliver_all
    {| _bus := Some Bus; _processes := _processes this;
       bus_handlers := S (bus_handlers this) |} inflight).1 by (by rewrite E).
  by rewrite deliver_all_handlers.
Qed.

End Connection.

Section Lifecycle.
Import PM2Tracker.

(** Before [start()] no handler is installed: the bus reaches nothing. *)
Lemma deliver_all_unstarted events :
  deliver_all PM2Tracker.new events = (PM2Tracker.new, []).
Proof. induction events as [|e events IH]; [done|]. cbn. by rewrite IH. Qed.

(** C8: [getCachedProcessMap] reads the tracker's field, takes no
    collaborator and returns no promise; on a new tracker it is the
    empty map, whatever the bus does meanwhile, and once [start()] has
    fulfilled it has an entry under an identity exactly when the
    initial list has a descriptor with that identity, each entry built
    from such a descriptor, no key twice; with pairwise distinct
    identities it is the list itself, entry by entry.  Events arriving
    during [start()] leave no trace. *)
Theorem cached_map_after_start :
  (∀ this : PM2Tracker.t, getCachedProcessMap this = _processes this)
  ∧ getCachedProcessMap PM2Tracker.new = JS.empty
  ∧ (∀ events : list busEvent,
       getCachedProcessMap (deliver_all PM2Tracker.new events).1 = JS.empty)
  ∧ ∀ (w : World) (inflight : list busEvent) (this : PM2Tracker.t),
      (start w inflight this).1.1 = Fulfilled () →
      ∃ processList,
        pm2_listAsync w = Fulfilled processList
        ∧ let cached := getCachedProcessMap (start w inflight this).1.2 in
          (∀ id, is_Some (JS.get cached id)
                 ↔ ∃ e, In e processList ∧ getProcessID e = id)
          ∧ (∀ id st, JS.get cached id = Some st →
               ∃ e, In e processList ∧ getProcessID e = id
                    ∧ st = entry_state e)
          ∧ NoDup (JS.keys cached)
          ∧ (NoDup (map getProcessID processList) →
             cached
             = map (λ e, (getProcessID e, entry_state e)) processList).
Proof.
  split_and!; [done | done | intros; by rewrite deliver_all_unstarted |].
  intros w inflight this Hok.
  destruct (start_fulfilled _ _ _ Hok) as (processList & Hlist & Hmap & _).
  exists processList. split; [done|].
  unfold getCachedProcessMap. rewrite Hmap. cbn zeta. split_and!.
  - intros id. split.
    + intros [st Hst].
      apply generateProcessMap_lookup in Hst as (e & ? & ? & _). eauto.
    + intros (e & He & <-). by apply generateProcessMap_listed.
  - apply generateProcessMap_lookup.
  - rewrite generateProcessMap_keys. apply generateProcessMap_wf.
  - apply generateProcessMap_distinct.
Qed.

Lemma cached_map_after_start_witness :
  getCachedProcessMap Sample.started
  = [ ("web-0", entry_state Sample.web0); ("web-1", entry_state Sample.web1) ].
Proof.
  destruct (proj2 (proj2 (proj2 cached_map_after_start))
              Sample.up [] PM2Tracker.new eq_refl)
    as (processList & Hlist & _ & _ & _ & Hdistinct).
  injection Hlist as <-. apply Hdistinct. vm_compute.
  repeat constructor; rewrite ?list_elem_of_In; simpl; intuition discriminate.
Defined.

(** [stop()] returns PM2's disconnect promise and leaves the cached
    map and the installed bus handler as they are: it removes no
    listener and sets no flag.  So an event the bus emits once
    [stop()] has been called runs the handler as before. *)
Theorem stop_keeps_handler_armed
    (w w' : World) (inflight : list busEvent) (t0 : PM2Tracker.t)
    (event : busEvent) :
  (start w inflight t0).1.1 = Fulfilled () →
  let started := (start w inflight t0).1.2 in
  let stopped := (stop w' started).2 in
  (stop w' started).1 = pm2_disconnectAsync w'
  ∧ getCachedProcessMap stopped = getCachedProcessMap started
  ∧ deliver stopped event = _handleProcessEvent started event
  ∧ JS.get (getCachedProcessMap (deliver stopped event).1)
           (getProcessID (process event))
    = Some (event_state (process event)).
Proof.
  intros Hok started stopped.
  destruct (start_fulfilled _ _ _ Hok) as (processList & _ & _ & Hn).
  assert (Hd : deliver stopped event = _handleProcessEvent started event).
  { apply deliver_installed. unfold stopped, stop. cbn [snd].
    unfold started. rewrite Hn. done. }
  split_and!; [done | done | done |].
  rewrite Hd. unfold getCachedProcessMap. rewrite handle_processes.
  apply get_set_eq.
Qed.

Lemma stop_keeps_handler_armed_witness :
  deliver Sample.stopped Sample.web0_stopping
  = _handleProcessEvent Sample.started Sample.web0_stopping.
Proof.
  exact (proj1 (proj2 (proj2
    (stop_keeps_handler_armed Sample.up Sample.up [] PM2Tracker.new
       Sample.web0_stopping eq_refl)))).
Defined.


End Lifecycle.

(** ** The state of the PM2 daemon *)

Section Supervisor.
Import PM2Tracker PM2ZabbixMonitor Batch.

(** C3, as the code has it: when the pid file is read and pidusage
    finds no process for its pid (it answers nothing, or rejects with
    code ENOENT), [getPM2State] fulfills with the synthetic state
    "offline", cpu 0, memory 0, restarts 0, pid 0, and [sendPM2Status]
    hands the sender the one batch status="offline", cpu=0, memory=0,
    pid=0. *)
Theorem offline_when_process_not_found (w : World) (content : string) :
  fs_readFile w (PM2_HOME w +:+ "/pm2.pid") = Fulfilled content →
  pidusage_stat w (Number w (String_trim w content)) = Fulfilled None
  ∨ pidusage_stat w (Number w (String_trim w content))
    = Rejected (Error (Some "ENOENT")) →
  getPM2State w = Fulfilled offline_state
  ∧ offline_state
    = {| ProcessState.name := "PM2";
         ProcessState.status := "offline";
         ProcessState.resources := Some {| cpu := JS.zero; memory := JS.zero |};
         ProcessState.restarts := Some JS.zero;
         ProcessState.pid := Some JS.zero |}
  ∧ sendPM2Status w = (sender_send w offline_batch, [offline_batch]).
Proof.
  intros Hread Hstat.
  assert (Hstate : getPM2State w = Fulfilled offline_state).
  { unfold getPM2State. rewrite Hread. cbn [then_].
    destruct Hstat as [-> | ->]; reflexivity. }
  split_and!; [done | done |].
  unfold sendPM2Status. by rewrite Hstate.
Qed.

Lemma offline_when_process_not_found_witness :
  getPM2State Sample.stale_pidfile = Fulfilled offline_state
  ∧ sendPM2Status Sample.stale_pidfile = (Fulfilled (), [offline_batch]).
Proof.
  destruct (offline_when_process_not_found Sample.stale_pidfile "4242"
              eq_refl (or_intror eq_refl)) as (H1 & _ & H2).
  split; [exact H1 | exact H2].
Defined.

(** C3 as claimed fails: without a pid file the read is rejected, and
    so are [getPM2State] and [sendPM2Status]; nothing is sent. *)
Lemma missing_pidfile_rejects :
  fs_readFile Sample.no_pidfile (PM2_HOME Sample.no_pidfile +:+ "/pm2.pid")
  = Rejected (Error (Some "ENOENT"))
  ∧ getPM2State Sample.no_pidfile = Rejected (Error (Some "ENOENT"))
  ∧ sendPM2Status Sample.no_pidfile = (Rejected (Error (Some "ENOENT")), []).
Proof. by vm_compute. Qed.

(** [getPM2State] fulfills with one of its two synthetic states. *)
Lemma getPM2State_fulfilled w st :
  getPM2State w = Fulfilled st →
  st = offline_state
  ∨ ∃ content usageInfo,
      fs_readFile w (PM2_HOME w +:+ "/pm2.pid") = Fulfilled content
      ∧ pidusage_stat w (Number w (String_trim w content))
        = Fulfilled (Some usageInfo)
      ∧ st = online_state usageInfo (Number w (String_trim w content)).
Proof.
  unfold getPM2State.
  destruct (fs_readFile w _) as [content|]; [|done]. cbn [then_].
  destruct (pidusage_stat w _) as [[usageInfo|]|error] eqn:E; cbn.
  - intros [= <-]. right. eauto.
  - intros [= <-]. by left.
  - destruct (is_ENOENT error); cbn; [|done]. intros [= <-]. by left.
Qed.

(** C9, as the code has it: a state of [getPM2State] has a pid, 0 when
    offline and the number read from the pid file when online; a state
    built from a process list has none; a state built from a bus event
    has the pid of the event's description. *)
Theorem pid_of_states :
  (∀ w st, getPM2State w = Fulfilled st →
     (ProcessState.status st = "offline"
      ∧ ProcessState.pid st = Some JS.zero)
     ∨ (ProcessState.status st = "online"
        ∧ ∃ content,
            fs_readFile w (PM2_HOME w +:+ "/pm2.pid") = Fulfilled content
            ∧ ProcessState.pid st
              = Some (Number w (String_trim w content))))
  ∧ (∀ processList id st,
       JS.get (generateProcessMap processList) id = Some st →
       ProcessState.pid st = None)
  ∧ (∀ this event n,
       In n (_handleProcessEvent this event).2 →
       ProcessState.pid (newState n) = proc_pid (process event)).
Proof.
  split_and!.
  - intros w st H.
    apply getPM2State_fulfilled in H as [->|(content & u & Hread & _ & ->)].
    + by left.
    + right. split; [done|]. by exists content.
  - intros l id st H.
    by apply generateProcessMap_lookup in H as (e & _ & _ & ->).
  - intros this event n Hin.
    unfold _handleProcessEvent in Hin. cbn [snd] in Hin.
    destruct (match JS.get _ _ with None => true | Some _ => _ end) in Hin;
      [|done].
    by destruct Hin as [<-|[]].
Qed.

Lemma pid_of_states_witness :
  ProcessState.pid (online_state Sample.pm2_usage (JS.of_N 4242))
  = Some (JS.of_N 4242).
Proof.
  destruct (proj1 pid_of_states Sample.up _ eq_refl)
    as [[H _]|(_ & content & Hread & Hpid)]; [discriminate H|].
  injection Hread as <-. exact Hpid.
Defined.

(** C9 as claimed fails: the state a process list yields has no pid. *)
Lemma listed_process_has_no_pid :
  JS.get (generateProcessMap [Sample.web0]) "web-0"
  = Some (entry_state Sample.web0)
  ∧ ProcessState.pid (entry_state Sample.web0) = None.
Proof. by vm_compute. Qed.

End Supervisor.

(** ** Item keys *)

Section Keys.
Import PM2ZabbixMonitor Batch.
Local Arguments getDataKey : simpl never.

Lemma append_inj_l a x y : a +:+ x = a +:+ y → x = y.
Proof. induction a as [|c a IH]; simpl; [done|]. intros [= H]. auto. Qed.

(** Where the last comma is, is where the field starts. *)
Lemma app_comma_inj s1 s2 f1 f2 :
  JS.contains JS.is_comma f1 = false →
  JS.contains JS.is_comma f2 = false →
  s1 +:+ "," +:+ f1 = s2 +:+ "," +:+ f2 →
  s1 = s2 ∧ f1 = f2.
Proof.
  intros H1 H2. revert s2.
  induction s1 as [|c1 s1 IH]; intros [|c2 s2] H.
  - injection H as H. by subst.
  - injection H as _ Hf. change (f1 = s2 +:+ "," +:+ f2) in Hf.
    rewrite Hf, contains_app in H1. simpl in H1.
    by rewrite orb_true_r in H1.
  - injection H as _ Hf. change (s1 +:+ "," +:+ f1 = f2) in Hf.
    rewrite <- Hf, contains_app in H2. simpl in H2.
    by rewrite orb_true_r in H2.
  - injection H as <- H. destruct (IH _ H) as [-> ->]. done.
Qed.

(** Two item keys are equal only for the same identity and field. *)
Lemma getDataKey_inj id id' st st' f f' :
  In f fields → In f' fields →
  getDataKey id st f = getDataKey id' st' f' → id = id' ∧ f = f'.
Proof.
  unfold getDataKey, fields. intros Hf Hf' H.
  apply append_inj_l in H.
  simpl in Hf, Hf'.
  destruct Hf as [<-|[<-|[<-|[<-|[]]]]], Hf' as [<-|[<-|[<-|[<-|[]]]]];
    apply app_comma_inj in H as [-> [=]]; done.
Qed.

Lemma getDataKey_not_index id st f : JS.is_index (getDataKey id st f) = false.
Proof. reflexivity. Qed.

Lemma get_app {V} (o o' : JS.object V) k :
  JS.get (o ++ o') k
  = match JS.get o k with Some v => Some v | None => JS.get o' k end.
Proof.
  induction o as [|[k' v'] o IH]; simpl; [done|].
  by destruct (String.eqb k k').
Qed.

Lemma get_In_wf {V} (o : JS.object V) k v :
  JS.wf o → In (k, v) o → JS.get o k = Some v.
Proof.
  unfold JS.wf. induction o as [|[k' v'] o IH]; simpl; [done|].
  intros Hnd [[= -> ->]|Hin].
  - by rewrite String.eqb_refl.
  - apply NoDup_cons in Hnd as [Hk' Hnd].
    destruct (String.eqb_spec k k') as [->|]; [|auto].
    destruct Hk'. apply list_elem_of_In. by apply (in_map fst _ (k', v)).
Qed.

Lemma get_entries_other id st id' st' f :
  id ≠ id' → In f fields → JS.get (entries id st) (getDataKey id' st' f) = None.
Proof.
  intros Hne Hf. apply get_None. intros Hin.
  apply in_map_iff in Hin as ([k v] & Hk & Hin). simpl in Hk. subst k.
  unfold entries in Hin. destruct (ProcessState.resources st); [|done].
  cbn [In] in Hin.
  destruct Hin as [H|[H|[H|[H|[]]]]];
    apply (f_equal fst) in H; cbn [fst] in H;
    apply getDataKey_inj in H as [? _]; unfold fields; simpl; auto 6.
Qed.

Lemma addProcess_fresh d id st res :
  ProcessState.resources st = Some res →
  (∀ f, In f fields → JS.get d (getDataKey id st f) = None) →
  addProcess d id st = Some (d ++ entries id st).
Proof.
  intros Hres Hfresh. unfold addProcess, entries. rewrite Hres.
  assert (Hd : ∀ f f', In f fields → In f' fields → f ≠ f' →
                String.eqb (getDataKey id st f) (getDataKey id st f') = false).
  { intros f f' Hf Hf' Hne. apply String.eqb_neq. intros H.
    by apply getDataKey_inj in H as [_ ?]. }
  assert (Hs : In "status" fields) by (simpl; auto).
  assert (Hc : In "cpu" fields) by (simpl; auto).
  assert (Hm : In "memory" fields) by (simpl; auto).
  assert (Hr : In "restarts" fields) by (simpl; auto).
  cbv zeta.
  rewrite (set_fresh d) by auto.
  rewrite (set_fresh (d ++ _)).
  2:{ rewrite get_app, Hfresh by done. cbn [JS.get]. by rewrite Hd. }
  rewrite (set_fresh ((d ++ _) ++ _)).
  2:{ rewrite !get_app, Hfresh by done. cbn [JS.get]. by rewrite !Hd. }
  rewrite (set_fresh (((d ++ _) ++ _) ++ _)).
  2:{ rewrite !get_app, Hfresh by done. cbn [JS.get]. by rewrite !Hd. }
  by rewrite <- !app_assoc.
Qed.

Lemma addProcesses_fresh m ids d :
  NoDup ids →
  (∀ id, In id ids →
     ∃ st res, JS.get m id = Some st ∧ ProcessState.resources st = Some res) →
  (∀ id st f, In id ids → In f fields → JS.get d (getDataKey id st f) = None) →
  addProcesses m ids d = Some (d ++ flat_map (entries_of m) ids).
Proof.
  revert d. induction ids as [|id ids IH]; intros d Hnd Hm Hfresh; simpl.
  - by rewrite app_nil_r.
  - apply NoDup_cons in Hnd as [Hid Hnd].
    destruct (Hm id) as (st & res & Hst & Hres); [by left|].
    unfold entries_of at 1. rewrite Hst.
    rewrite (addProcess_fresh d id st res);
      [|done|intros f Hf; apply Hfresh; [by left|done]].
    rewrite IH, app_assoc; [done | done | |].
    + intros id' Hid'. apply Hm. by right.
    + intros id' st' f Hid' Hf.
      rewrite get_app, Hfresh; [|by right|done].
      apply get_entries_other; [|done]. intros ->. apply Hid.
      by apply list_elem_of_In.
Qed.

End Keys.

(** ** The batches of the monitor *)

Section Batches.
Import PM2Tracker PM2ZabbixMonitor Batch.
Local Arguments getDataKey : simpl never.

Lemma addProcess_wf d id st d' :
  JS.wf d → addProcess d id st = Some d' → JS.wf d'.
Proof.
  unfold addProcess. destruct (ProcessState.resources st); [|done].
  intros Hwf [= <-]. by do 4 apply wf_set.
Qed.

Lemma addProcesses_wf m ids d d' :
  JS.wf d → addProcesses m ids d = Some d' → JS.wf d'.
Proof.
  revert d. induction ids as [|id ids IH]; intros d Hwf; simpl.
  - by intros [= <-].
  - destruct (JS.get m id) as [st|]; [|done].
    destruct (addProcess d id st) as [d1|] eqn:E; [|done].
    apply IH. by apply (addProcess_wf d id st).
Qed.

(** Every entry of a process map has resources and a restart count. *)
Lemma generateProcessMap_complete l id st :
  JS.get (generateProcessMap l) id = Some st →
  ∃ res n, ProcessState.resources st = Some res
           ∧ ProcessState.restarts st = Some n.
Proof.
  intros H. apply generateProcessMap_lookup in H as (e & _ & _ & ->).
  simpl. eauto.
Qed.

Lemma entries_keys m ids :
  (∀ id, In id ids →
     ∃ st res, JS.get m id = Some st ∧ ProcessState.resources st = Some res) →
  map fst (flat_map (entries_of m) ids)
  = flat_map
      (λ id, map (λ field, "pm2.processes[" +:+ id +:+ "," +:+ field +:+ "]")
                 ["status"; "cpu"; "memory"; "restarts"])
      ids.
Proof.
  induction ids as [|id ids IH]; intros Hm; [done|].
  cbn [flat_map]. rewrite map_app, IH by (intros; apply Hm; by right).
  f_equal. destruct (Hm id) as (st & res & Hst & Hres); [by left|].
  unfold entries_of, entries. by rewrite Hst, Hres.
Qed.

Lemma process_batch_keys m ids :
  (∀ id, In id ids →
     ∃ st res, JS.get m id = Some st ∧ ProcessState.resources st = Some res) →
  JS.keys (flat_map (entries_of m) ids) = map fst (flat_map (entries_of m) ids).
Proof.
  intros Hm. apply own_keys_creation_order, Forall_forall. intros k Hk.
  rewrite (entries_keys m ids Hm) in Hk.
  apply list_elem_of_In, in_flat_map in Hk as (id & _ & Hk).
  simpl in Hk. by destruct Hk as [<-|[<-|[<-|[<-|[]]]]].
Qed.

(** C6: [sendProcessList] hands the sender one batch; its keys are, for
    each identity of the fresh map in turn, "pm2.processes[" + identity
    + "," + field + "]" for the fields status, cpu, memory, restarts;
    no key occurs twice, and each key holds that field's value.  The
    batch of [sendPM2Status] has the keys "pm2." + field for status,
    cpu, memory, pid, with the daemon's values. *)
Theorem batches_have_exact_keys :
  (∀ (w : World) (processList : list processEntry),
     pm2_listAsync w = Fulfilled processList →
     let processMap := generateProcessMap processList in
     ∃ dataObject,
       sendProcessList w = (sender_send w dataObject, [dataObject])
       ∧ JS.keys dataObject
         = flat_map
             (λ id,
                map (λ field,
                       "pm2.processes[" +:+ id +:+ "," +:+ field +:+ "]")
                    ["status"; "cpu"; "memory"; "restarts"])
             (JS.keys processMap)
       ∧ NoDup (JS.keys dataObject)
       ∧ ∀ id st, JS.get processMap id = Some st →
           JS.get dataObject ("pm2.processes[" +:+ id +:+ "," +:+ "status" +:+ "]")
           = Some (JS.VString (ProcessState.status st))
           ∧ JS.get dataObject ("pm2.processes[" +:+ id +:+ "," +:+ "cpu" +:+ "]")
             = (λ res, JS.VNumber (cpu res)) <$> ProcessState.resources st
           ∧ JS.get dataObject
               ("pm2.processes[" +:+ id +:+ "," +:+ "memory" +:+ "]")
             = (λ res, JS.VNumber (memory res)) <$> ProcessState.resources st
           ∧ JS.get dataObject
               ("pm2.processes[" +:+ id +:+ "," +:+ "restarts" +:+ "]")
             = JS.VNumber <$> ProcessState.restarts st)
  ∧ (∀ (w : World) (st : ProcessState.t),
       getPM2State w = Fulfilled st →
       ∃ dataObject,
         sendPM2Status w = (sender_send w dataObject, [dataObject])
         ∧ JS.keys dataObject
           = map (λ field, "pm2." +:+ field) ["status"; "cpu"; "memory"; "pid"]
         ∧ JS.get dataObject "pm2.status"
           = Some (JS.VString (ProcessState.status st))
         ∧ JS.get dataObject "pm2.cpu"
           = (λ res, JS.VNumber (cpu res)) <$> ProcessState.resources st
         ∧ JS.get dataObject "pm2.memory"
           = (λ res, JS.VNumber (memory res)) <$> ProcessState.resources st
         ∧ JS.get dataObject "pm2.pid" = JS.VNumber <$> ProcessState.pid st).
Proof.
  split.
  - intros w processList Hlist processMap.
    assert (Hm : ∀ id, In id (JS.keys processMap) →
              ∃ st res, JS.get processMap id = Some st
                        ∧ ProcessState.resources st = Some res).
    { intros id Hid. apply keys_get in Hid as [st Hst]. exists st.
      destruct (generateProcessMap_complete _ _ _ Hst) as (res & _ & ? & _).
      eauto. }
    assert (Hnd : NoDup (JS.keys processMap)).
    { unfold processMap. rewrite generateProcessMap_keys.
      apply generateProcessMap_wf. }
    pose proof (addProcesses_fresh processMap (JS.keys processMap) JS.empty
                  Hnd Hm (λ _ _ _ _ _, eq_refl)) as Hadd.
    cbn [app JS.empty] in Hadd.
    exists (flat_map (entries_of processMap) (JS.keys processMap)).
    assert (Hwf : JS.wf (flat_map (entries_of processMap) (JS.keys processMap))).
    { apply (addProcesses_wf _ _ JS.empty _ (NoDup_nil_2) Hadd). }
    split_and!.
    + unfold sendProcessList, getProcessMap. rewrite Hlist. cbn [then_].
      fold processMap. by rewrite Hadd.
    + by rewrite process_batch_keys, entries_keys.
    + by rewrite process_batch_keys.
    + intros id st Hst.
      assert (Hid : In id (JS.keys processMap)).
      { apply In_own_keys, get_is_Some. eauto. }
      destruct (generateProcessMap_complete _ _ _ Hst) as (res & n & Hres & Hn).
      assert (Hin : ∀ kv, In kv (entries id st) →
                In kv (flat_map (entries_of processMap) (JS.keys processMap))).
      { intros kv Hkv. apply in_flat_map. exists id. split; [done|].
        unfold entries_of. by rewrite Hst. }
      unfold entries in Hin. rewrite Hres, Hn in *. cbn [fmap option_fmap option_map].
      split_and!; apply get_In_wf; try done; apply Hin; simpl; auto 6.
  - intros w st Hst.
    assert (Hres : ∃ res p, ProcessState.resources st = Some res
                            ∧ ProcessState.pid st = Some p).
    { apply getPM2State_fulfilled in Hst as [->|(? & ? & _ & _ & ->)];
        simpl; eauto. }
    destruct Hres as (res & p & Hres & Hp).
    unfold sendPM2Status. rewrite Hst. unfold managerObject.
    rewrite Hres, Hp. eexists. split; [reflexivity|].
    by vm_compute.
Qed.

Lemma batches_have_exact_keys_witness :
  ∃ dataObject,
    sendProcessList Sample.up = (Fulfilled (), [dataObject])
    ∧ JS.keys dataObject
      = [ "pm2.processes[web-0,status]"; "pm2.processes[web-0,cpu]";
          "pm2.processes[web-0,memory]"; "pm2.processes[web-0,restarts]";
          "pm2.processes[web-1,status]"; "pm2.processes[web-1,cpu]";
          "pm2.processes[web-1,memory]"; "pm2.processes[web-1,restarts]" ].
Proof.
  destruct (proj1 batches_have_exact_keys Sample.up _ eq_refl)
    as (dataObject & Hsend & Hkeys & _).
  exists dataObject. split; [exact Hsend | exact Hkeys].
Defined.

End Batches.

(** ** Discovery *)

Section Discovery.
Import PM2Tracker ZabbixDataProvider PM2ZabbixMonitor.

Lemma registerProcesses_items m p :
  _discoveryItems (registerProcesses m p)
  = _discoveryItems p
    ++ flat_map
         (λ id, match JS.get m id with
                | Some st => [discoveryItem id st]
                | None => []
                end)
         (JS.keys m).
Proof.
  unfold registerProcesses. revert p.
  induction (JS.keys m) as [|id ids IH]; intros p; simpl.
  - by rewrite app_nil_r.
  - rewrite IH. destruct (JS.get m id); simpl; [|done].
    by rewrite <- app_assoc.
Qed.

Lemma distinct_lookup l e :
  NoDup (map getProcessID l) → In e l →
  JS.get (generateProcessMap l) (getProcessID e) = Some (entry_state e).
Proof.
  intros Hnd He. apply get_In_wf; [apply generateProcessMap_wf|].
  rewrite generateProcessMap_distinct by done.
  by apply (in_map (λ e, (getProcessID e, entry_state e))).
Qed.

Lemma distinct_keys l :
  NoDup (map getProcessID l) →
  JS.keys (generateProcessMap l) = map getProcessID l.
Proof.
  intros Hnd.
  rewrite generateProcessMap_keys, generateProcessMap_distinct by done.
  by rewrite map_map.
Qed.

(** For pairwise distinct identities: after [start()] has fulfilled,
    the discovery data is the envelope of the provider's earlier items
    followed by one item per listed process, in list order. *)
Lemma discovery_lists_each_process
    (w : World) (inflight : list busEvent) (this : PM2ZabbixMonitor.t)
    (processList : list processEntry) :
  (PM2ZabbixMonitor.start w inflight this).1.1 = Fulfilled () →
  pm2_listAsync w = Fulfilled processList →
  NoDup (map getProcessID processList) →
  getDiscoveryData (_dataProvider (PM2ZabbixMonitor.start w inflight this).1.2)
  = {| data :=
         _discoveryItems (_dataProvider this)
         ++ map (λ e,
                   [ ("{#PROCESS_ID}",
                      entry_name e +:+ "-" +:+ pretty (entry_pm_id e));
                     ("{#PROCESS_NAME}", entry_name e) ])
                processList |}.
Proof.
  intros Hok Hlist Hnd. unfold PM2ZabbixMonitor.start in *.
  destruct (PM2Tracker.start w inflight (_tracker this))
    as [[started tracker] emitted] eqn:E.
  destruct started as [[]|r]; [|done]. cbn [fst snd _dataProvider].
  destruct (start_fulfilled w inflight (_tracker this)) as (l & Hl & Hmap & _);
    [by rewrite E|].
  rewrite E in Hmap. cbn [fst snd] in Hmap.
  rewrite Hlist in Hl. injection Hl as <-.
  unfold getDiscoveryData, getCachedProcessMap. f_equal.
  rewrite registerProcesses_items, Hmap, distinct_keys by done. f_equal.
  assert (Hget : ∀ e, In e processList →
            JS.get (generateProcessMap processList) (getProcessID e)
            = Some (entry_state e)) by (intros; by apply distinct_lookup).
  clear -Hget. revert Hget.
  generalize (generateProcessMap processList) as m.
  induction processList as [|e l IH]; intros m Hget; [done|].
  cbn [map flat_map]. rewrite Hget by (by left). cbn [app].
  f_equal. apply IH. intros e' He'. apply Hget. by right.
Qed.

(** [a === b] holds for a defined [a] exactly when [b] is the same. *)
Lemma strict_eq_Some v b : strict_eq (Some v) b = true ↔ b = Some v.
Proof.
  destruct b as [v'|]; simpl; [|split; discriminate].
  rewrite String.eqb_eq. split; [by intros -> | by intros [= ->]].
Qed.

(** The filter of [removeDiscoveryItems] drops an item exactly when it
    matches in the specification's sense. *)
Lemma removeMatching_spec removalSpecification discoveryItem :
  removeMatching removalSpecification discoveryItem = false
  ↔ spec_matches removalSpecification discoveryItem.
Proof.
  unfold removeMatching, spec_matches.
  rewrite negb_false_iff, forallb_forall. split.
  - intros H key v Hv. apply strict_eq_Some. rewrite <- Hv. apply H.
    apply In_own_keys, get_is_Some. eauto.
  - intros H key Hkey. apply keys_get in Hkey as [v Hv].
    rewrite Hv. apply strict_eq_Some. by apply H.
Qed.

(** C7: [removeDiscoveryItems] keeps, in order, the items that do not
    match, where an item matches when every key of the specification
    is a key of the item with an equal value; keys the specification
    does not mention play no part; the empty specification matches
    every item and leaves the list empty. *)
Theorem removeDiscoveryItems_removes_matching
    (this : ZabbixDataProvider.t) (removalSpecification : item) :
  (∃ keep : item → bool,
     (∀ discoveryItem,
        keep discoveryItem = false
        ↔ spec_matches removalSpecification discoveryItem)
     ∧ _discoveryItems (removeDiscoveryItems this removalSpecification)
       = List.filter keep (_discoveryItems this))
  ∧ (∀ discoveryItem,
       In discoveryItem
          (_discoveryItems (removeDiscoveryItems this removalSpecification))
       ↔ In discoveryItem (_discoveryItems this)
         ∧ ¬ spec_matches removalSpecification discoveryItem)
  ∧ (∀ discoveryItem key value,
       JS.get removalSpecification key = None →
       spec_matches removalSpecification discoveryItem →
       spec_matches removalSpecification (JS.set discoveryItem key value))
  ∧ _discoveryItems (removeDiscoveryItems this JS.empty) = [].
Proof.
  split_and!.
  - exists (removeMatching removalSpecification).
    split; [apply removeMatching_spec | done].
  - intros discoveryItem. unfold removeDiscoveryItems. cbn [_discoveryItems].
    rewrite filter_In, <- removeMatching_spec.
    by destruct (removeMatching _ _); intuition.
  - intros discoveryItem key value Hnone Hm k v Hk.
    rewrite get_set_ne; [by apply Hm|]. intros ->. congruence.
  - unfold removeDiscoveryItems. cbn [_discoveryItems].
    induction (_discoveryItems this) as [|i l IH]; [done|]. by simpl.
Qed.

End Discovery.

(** ** The end-to-end scenarios *)

Section Scenarios.
Import PM2Tracker ZabbixDataProvider PM2ZabbixMonitor.

(** web-0 goes from online to stopping: the notification carries both
    states, and the cache holds the new one. *)
Lemma notification_agrees_with_cache_witness :
  JS.get
    (_processes (_handleProcessEvent Sample.started Sample.web0_stopping).1)
    "web-0"
  = Some (event_state (process Sample.web0_stopping))
  ∧ Some (entry_state Sample.web0) = JS.get (_processes Sample.started) "web-0".
Proof.
  destruct (notification_agrees_with_cache Sample.started Sample.web0_stopping
              {| processID := "web-0";
                 oldState := Some (entry_state Sample.web0);
                 newState := event_state (process Sample.web0_stopping) |}
              (or_introl eq_refl)) as (_ & Hnew & Hold).
  split; [exact Hnew | exact Hold].
Defined.

(** The monitor forwards that change as the single key
    [pm2.processes[web-0,status]]. *)
Example status_change_is_forwarded :
  let m := (PM2ZabbixMonitor.start Sample.up [] (Sample.fresh_monitor true)).1.2 in
  forward m (deliver (_tracker m) Sample.web0_stopping).2
  = [ [ ("pm2.processes[web-0,status]", JS.VString "stopping") ] ].
Proof. reflexivity. Qed.

(** A change of resources alone is not forwarded. *)
Example resource_change_is_silent :
  (deliver Sample.started (Sample.event "web" 0 "online")).2 = [].
Proof. reflexivity. Qed.

Lemma removeDiscoveryItems_removes_matching_witness :
  _discoveryItems
    (removeDiscoveryItems
       {| _discoveryItems :=
            [ discoveryItem "web-0" (entry_state Sample.web0);
              discoveryItem "web-1" (entry_state Sample.web1) ] |}
       JS.empty)
  = [].
Proof.
  exact (proj2 (proj2 (proj2
    (removeDiscoveryItems_removes_matching
       {| _discoveryItems :=
            [ discoveryItem "web-0" (entry_state Sample.web0);
              discoveryItem "web-1" (entry_state Sample.web1) ] |}
       JS.empty)))).
Defined.

(** Removing by identity leaves the other instance of the same name. *)
Example remove_by_process_id :
  _discoveryItems
    (removeDiscoveryItems
       {| _discoveryItems :=
            [ discoveryItem "web-0" (entry_state Sample.web0);
              discoveryItem "web-1" (entry_state Sample.web1) ] |}
       [ ("{#PROCESS_ID}", "web-0") ])
  = [ discoveryItem "web-1" (entry_state Sample.web1) ].
Proof. reflexivity. Qed.

End Scenarios.

(** * Further properties *)

(** ** Identities *)

Section Identities.
Import PM2Tracker Reference.

Lemma pretty_N_char_not_dash x : JS.is_dash (pretty_N_char x) = false.
Proof. unfold pretty_N_char. by repeat case_match. Qed.

Lemma pretty_N_go_no_dash x s :
  JS.contains JS.is_dash s = false →
  JS.contains JS.is_dash (pretty_N_go x s) = false.
Proof.
  revert s. induction (N.lt_wf_0 x) as [x _ IH]; intros s Hs.
  destruct (decide (x = 0)%N) as [->|Hx]; [by rewrite pretty_N_go_0|].
  rewrite pretty_N_go_step by lia. apply IH.
  - apply N.div_lt; lia.
  - simpl. by rewrite pretty_N_char_not_dash.
Qed.

(** The decimal form of a [pm_id] has no dash. *)
Lemma pretty_N_no_dash (n : N) : JS.contains JS.is_dash (pretty n) = false.
Proof.
  unfold pretty, pretty_N. case_decide; [done|].
  by apply pretty_N_go_no_dash.
Qed.

(** Where the last dash is, is where the [pm_id] starts. *)
Lemma app_dash_inj s1 s2 f1 f2 :
  JS.contains JS.is_dash f1 = false →
  JS.contains JS.is_dash f2 = false →
  s1 +:+ "-" +:+ f1 = s2 +:+ "-" +:+ f2 →
  s1 = s2 ∧ f1 = f2.
Proof.
  intros H1 H2. revert s2.
  induction s1 as [|c1 s1 IH]; intros [|c2 s2] H.
  - injection H as H. by subst.
  - injection H as _ Hf. change (f1 = s2 +:+ "-" +:+ f2) in Hf.
    rewrite Hf, contains_app in H1. simpl in H1.
    by rewrite orb_true_r in H1.
  - injection H as _ Hf. change (s1 +:+ "-" +:+ f1 = f2) in Hf.
    rewrite <- Hf, contains_app in H2. simpl in H2.
    by rewrite orb_true_r in H2.
  - injection H as <- H. destruct (IH _ H) as [-> ->]. done.
Qed.

(** X1: two process objects, of a list or of a bus event, get the same
    identity exactly when they have the same name and the same
    [pm_id]; a dash inside a name cannot make two processes collide. *)
Theorem identity_determines_process
    `{Identified A} `{Identified B} (x : A) (y : B) :
  getProcessID x = getProcessID y
  ↔ obj_name x = obj_name y ∧ obj_pm_id x = obj_pm_id y.
Proof.
  unfold getProcessID. split.
  - intros Heq.
    apply app_dash_inj in Heq as [Hn Hp]; auto using pretty_N_no_dash.
    split; [done|]. by apply (inj pretty).
  - by intros [-> ->].
Qed.

(** X2: a process list is folded into the map from the left: a
    descriptor whose identity is new appends its key, one whose identity
    is already there keeps the key's place, and the state stored under
    an identity is built from the last descriptor that has it. *)
Theorem process_map_order_and_last_wins :
  (∀ l e,
     JS.keys (generateProcessMap (l ++ [e]))
     = if decide (getProcessID e ∈ JS.keys (generateProcessMap l))
       then JS.keys (generateProcessMap l)
       else JS.keys (generateProcessMap l) ++ [getProcessID e])
  ∧ (∀ l1 e l2,
       Forall (λ e', getProcessID e' ≠ getProcessID e) l2 →
       JS.get (generateProcessMap (l1 ++ e :: l2)) (getProcessID e)
       = Some (entry_state e)).
Proof.
  split.
  - intros l e. rewrite !generateProcessMap_keys, generateProcessMap_snoc.
    case_decide as Hin; rewrite list_elem_of_In in Hin.
    + apply set_keys_present. by apply get_is_Some.
    + rewrite set_fresh, map_app; [done|]. by apply get_None.
  - intros l1 e l2. induction l2 as [|e' l2 IH] using rev_ind; intros Hl2.
    + rewrite generateProcessMap_snoc. apply get_set_eq.
    + apply Forall_app in Hl2 as [Hl2 He'].
      apply Forall_inv in He'.
      rewrite app_comm_cons, app_assoc, generateProcessMap_snoc.
      rewrite get_set_ne by exact He'. by apply IH.
Qed.

Lemma identity_keys_set o `{Identified A} (x : A) st :
  identity_keys o → identity_keys (JS.set o (getProcessID x) st).
Proof.
  intros [Hwf Hdash]. split; [by apply wf_set|].
  destruct (JS.get o (getProcessID x)) eqn:E.
  - by rewrite set_keys_present.
  - rewrite set_fresh, map_app by done. apply Forall_app. split; [done|].
    apply Forall_singleton, getProcessID_dash.
Qed.

Lemma identity_keys_order o : identity_keys o → JS.keys o = map fst o.
Proof.
  intros [_ Hdash]. apply own_keys_creation_order.
  eapply Forall_impl; [exact Hdash|]. intros k. apply dash_not_index.
Qed.

Lemma identity_keys_generate l : identity_keys (generateProcessMap l).
Proof.
  induction l as [|e l IH] using rev_ind.
  - split; [apply NoDup_nil_2 | apply Forall_nil_2].
  - rewrite generateProcessMap_snoc. by apply identity_keys_set.
Qed.

Lemma identity_keys_dispatch n this event :
  identity_keys (_processes this) →
  identity_keys (_processes (dispatch n this event).1).
Proof.
  revert this. induction n as [|n IH]; intros this Hok; [done|].
  cbn [dispatch].
  destruct (_handleProcessEvent this event) as [this1 out1] eqn:E.
  specialize (IH this1). destruct (dispatch n this1 event) as [this2 out2].
  cbn [fst] in *. apply IH.
  replace this1 with (_handleProcessEvent this event).1 by (by rewrite E).
  rewrite handle_processes. by apply identity_keys_set.
Qed.

Lemma identity_keys_deliver_all this events :
  identity_keys (_processes this) →
  identity_keys (_processes (deliver_all this events).1).
Proof.
  revert this. induction events as [|e events IH]; intros this Hok; [done|].
  cbn [deliver_all].
  destruct (deliver this e) as [this1 out1] eqn:E.
  specialize (IH this1). destruct (deliver_all this1 events) as [this2 out2].
  cbn [fst] in *. apply IH.
  replace this1 with (deliver this e).1 by (by rewrite E).
  by apply identity_keys_dispatch.
Qed.

(** X3: the cache only ever has identities as keys, each once: this
    holds for a new tracker, is kept by the event handler, by delivery
    and by [start()], fulfilled or not; for such a cache [Object.keys]
    is the order in which the identities were first stored. *)
Theorem cache_keys_are_identities :
  identity_keys (_processes PM2Tracker.new)
  ∧ (∀ this event,
       identity_keys (_processes this) →
       identity_keys (_processes (_handleProcessEvent this event).1))
  ∧ (∀ this events,
       identity_keys (_processes this) →
       identity_keys (_processes (deliver_all this events).1))
  ∧ (∀ w inflight this,
       identity_keys (_processes this) →
       identity_keys (_processes (start w inflight this).1.2))
  ∧ (∀ o, identity_keys o → JS.keys o = map fst o ∧ NoDup (JS.keys o)).
Proof.
  split_and!.
  - split; [apply NoDup_nil_2 | apply Forall_nil_2].
  - intros this event Hok. rewrite handle_processes.
    by apply identity_keys_set.
  - apply identity_keys_deliver_all.
  - intros w inflight this Hok. unfold start.
    destruct (pm2_connectAsync w); [|done].
    destruct (pm2_launchBusAsync w); [|done].
    destruct (deliver_all _ inflight) as [this2 out] eqn:E.
    assert (Hok2 : identity_keys (_processes this2)).
    { replace this2 with (deliver_all
        {| _bus := Some Bus; _processes := _processes this;
           bus_handlers := S (bus_handlers this) |} inflight).1
        by (by rewrite E).
      by apply identity_keys_deliver_all. }
    destruct (pm2_listAsync w) as [processList|]; [|done].
    apply identity_keys_generate.
  - intros o Hok. split; [by apply identity_keys_order|].
    rewrite identity_keys_order by done. apply Hok.
Qed.

(** X4: a bus event for an identity the cache knows leaves
    [Object.keys] of the cache as it is; one for a new identity adds
    that identity at the end. *)
Theorem event_keeps_key_order (this : PM2Tracker.t) (event : busEvent) :
  identity_keys (_processes this) →
  JS.keys (_processes (_handleProcessEvent this event).1)
  = if decide (getProcessID (process event) ∈ JS.keys (_processes this))
    then JS.keys (_processes this)
    else JS.keys (_processes this) ++ [getProcessID (process event)].
Proof.
  intros Hok.
  assert (Hok' : identity_keys (_processes (_handleProcessEvent this event).1)).
  { rewrite handle_processes. by apply identity_keys_set. }
  rewrite !identity_keys_order by done.
  rewrite handle_processes. case_decide as Hin; rewrite list_elem_of_In in Hin.
  - apply set_keys_present. by apply get_is_Some.
  - rewrite set_fresh, map_app; [done|]. by apply get_None.
Qed.

End Identities.

(** ** Starting the tracker *)

Section Starting.
Import PM2Tracker Reference.

(** X5: how [start()] fails.  When connecting or launching the bus is
    rejected, [start()] is rejected with that reason and the tracker is
    untouched: no handler, no cache change, no emission.  When only the
    list query is rejected, the handler stays installed and the cache
    holds what the events that arrived meanwhile left in it. *)
Theorem start_failure_modes
    (w : World) (inflight : list busEvent) (this : PM2Tracker.t) (r : reason) :
  (pm2_connectAsync w = Rejected r →
   start w inflight this = (Rejected r, this, []))
  ∧ (pm2_connectAsync w = Fulfilled () →
     pm2_launchBusAsync w = Rejected r →
     start w inflight this = (Rejected r, this, []))
  ∧ (pm2_connectAsync w = Fulfilled () →
     pm2_launchBusAsync w = Fulfilled () →
     pm2_listAsync w = Rejected r →
     let installed :=
       {| _bus := Some Bus; _processes := _processes this;
          bus_handlers := S (bus_handlers this) |} in
     start w inflight this
     = (Rejected r, (deliver_all installed inflight).1,
        (deliver_all installed inflight).2)
     ∧ bus_handlers (start w inflight this).1.2 = S (bus_handlers this)
     ∧ (inflight = [] →
        _processes (start w inflight this).1.2 = _processes this)).
Proof.
  unfold start. split_and!.
  - by intros ->.
  - by intros -> ->.
  - intros -> -> ->. cbn zeta.
    destruct (deliver_all _ inflight) as [this2 out] eqn:E.
    split_and!; [done | | by intros ->; injection E as <- _].
    cbn [fst snd].
    replace this2 with (deliver_all
      {| _bus := Some Bus; _processes := _processes this;
         bus_handlers := S (bus_handlers this) |} inflight).1
      by (by rewrite E).
    by rewrite deliver_all_handlers.
Qed.

Lemma start_failure_modes_witness :
  start Cases.unreachable [Sample.api7_online] PM2Tracker.new
  = (Rejected Cases.refused, PM2Tracker.new, [])
  ∧ JS.get
      (_processes
         (start Cases.failing [Sample.api7_online] PM2Tracker.new).1.2)
      "api-7"
    = Some (event_state (process Sample.api7_online)).
Proof.
  split.
  - exact (proj1 (start_failure_modes Cases.unreachable [Sample.api7_online]
                    PM2Tracker.new Cases.refused) eq_refl).
  - destruct (proj2 (proj2 (start_failure_modes Cases.failing
                [Sample.api7_online] PM2Tracker.new Cases.refused))
                eq_refl eq_refl eq_refl) as (Hs & _ & _).
    by rewrite Hs.
Defined.

Lemma handle_all_cons this event events :
  handle_all this (event :: events)
  = ((handle_all (_handleProcessEvent this event).1 events).1,
     (_handleProcessEvent this event).2
     ++ (handle_all (_handleProcessEvent this event).1 events).2).
Proof.
  cbn [handle_all].
  destruct (_handleProcessEvent this event) as [this1 out1]. cbn [fst snd].
  by destruct (handle_all this1 events).
Qed.

(** X7: for the events of one identity, the notifications are the
    status changes: their new statuses are the event statuses that
    differ from the status before (the cached one, for the first), in
    order, and every notification names that identity. *)
Theorem notifications_are_status_changes
    (this : PM2Tracker.t) (events : list busEvent) (id : string) :
  Forall (λ e, getProcessID (process e) = id) events →
  map (λ n, ProcessState.status (newState n)) (handle_all this events).2
  = status_changes (ProcessState.status <$> JS.get (_processes this) id)
      (map (λ e, proc_status (process e)) events)
  ∧ Forall (λ n, processID n = id) (handle_all this events).2.
Proof.
  intros Hall. revert this.
  induction Hall as [|e events He _ IH]; intros this; [done|].
  rewrite handle_all_cons. cbn [snd map status_changes].
  set (this1 := (_handleProcessEvent this e).1).
  destruct (IH this1) as [IH1 IH2].
  assert (Hget : JS.get (_processes this1) id = Some (event_state (process e))).
  { unfold this1. rewrite handle_processes, He. apply get_set_eq. }
  rewrite Hget in IH1. cbn [fmap option_fmap option_map] in IH1.
  change (ProcessState.status (event_state (process e)))
    with (proc_status (process e)) in IH1.
  rewrite map_app, Forall_app, IH1.
  unfold _handleProcessEvent. cbn [snd]. rewrite He.
  destruct (JS.get (_processes this) id) as [old|];
    cbn [fmap option_fmap option_map ProcessState.equals].
  - change (ProcessState.status (event_state (process e)))
      with (proc_status (process e)).
    rewrite (String.eqb_sym (proc_status (process e))).
    destruct (String.eqb (ProcessState.status old) (proc_status (process e)));
      cbn [negb map app]; split_and!; try done; by repeat constructor.
  - cbn [map app]. split_and!; try done. by repeat constructor.
Qed.

Lemma notifications_are_status_changes_witness :
  map (λ n, ProcessState.status (newState n))
      (handle_all Sample.started
         [ Sample.event "web" 0 "online"; Sample.web0_stopping;
           Sample.web0_stopping; Sample.event "web" 0 "stopped" ]).2
  = ["stopping"; "stopped"].
Proof.
  refine (proj1 (notifications_are_status_changes Sample.started
    [ Sample.event "web" 0 "online"; Sample.web0_stopping;
      Sample.web0_stopping; Sample.event "web" 0 "stopped" ] "web-0" _)).
  by repeat constructor.
Defined.

Lemma event_keeps_key_order_witness :
  JS.keys (_processes (_handleProcessEvent Sample.started Sample.api7_online).1)
  = ["web-0"; "web-1"; "api-7"].
Proof.
  refine (event_keeps_key_order Sample.started Sample.api7_online _).
  split; [|by repeat constructor].
  vm_compute.
  repeat constructor; rewrite ?list_elem_of_In; simpl; intuition discriminate.
Defined.

End Starting.

(** ** The daemon, when it is there or cannot be told *)

Section Daemon.
Import PM2Tracker PM2ZabbixMonitor Batch.

(** X8: when the pid file is read and pidusage has figures for its
    pid, [getPM2State] fulfills with the state "online" named PM2,
    carrying those figures, zero restarts and that pid, and
    [sendPM2Status] hands the sender the one batch of status, cpu,
    memory and pid. *)
Theorem online_when_process_found
    (w : World) (content : string) (usageInfo : usage) :
  fs_readFile w (PM2_HOME w +:+ "/pm2.pid") = Fulfilled content →
  pidusage_stat w (Number w (String_trim w content))
  = Fulfilled (Some usageInfo) →
  let PM2PID := Number w (String_trim w content) in
  let dataObject :=
    [ ("pm2.status", JS.VString "online");
      ("pm2.cpu", JS.VNumber (cpu usageInfo));
      ("pm2.memory", JS.VNumber (memory usageInfo));
      ("pm2.pid", JS.VNumber PM2PID) ] in
  getPM2State w
  = Fulfilled
      {| ProcessState.name := "PM2";
         ProcessState.status := "online";
         ProcessState.resources := Some usageInfo;
         ProcessState.restarts := Some JS.zero;
         ProcessState.pid := Some PM2PID |}
  ∧ sendPM2Status w = (sender_send w dataObject, [dataObject]).
Proof.
  intros Hread Hstat PM2PID dataObject.
  assert (Hstate : getPM2State w = Fulfilled (online_state usageInfo PM2PID)).
  { unfold getPM2State. rewrite Hread. cbn [then_]. fold PM2PID.
    unfold PM2PID. by rewrite Hstat. }
  split; [exact Hstate|].
  unfold sendPM2Status. by rewrite Hstate.
Qed.

Lemma online_when_process_found_witness :
  sendPM2Status Sample.up
  = (Fulfilled (),
     [ [ ("pm2.status", JS.VString "online");
         ("pm2.cpu", JS.VNumber (JS.Num (1 # 2)));
         ("pm2.memory", JS.VNumber (JS.of_N 41943040));
         ("pm2.pid", JS.VNumber (JS.of_N 4242)) ] ]).
Proof.
  exact (proj2 (online_when_process_found Sample.up "4242" Sample.pm2_usage
                  eq_refl eq_refl)).
Defined.

(** X9: [getPM2State] is rejected in two cases only, and with the
    reason it was given: the pid file cannot be read, whatever the
    reason (a missing file included), or pidusage is rejected with
    something other than an error of code ENOENT.  A rejected
    [getPM2State] makes [sendPM2Status] reject alike, with nothing
    sent. *)
Theorem supervisor_state_rejections (w : World) (r : reason) :
  (getPM2State w = Rejected r
   ↔ fs_readFile w (PM2_HOME w +:+ "/pm2.pid") = Rejected r
     ∨ ∃ content,
         fs_readFile w (PM2_HOME w +:+ "/pm2.pid") = Fulfilled content
         ∧ pidusage_stat w (Number w (String_trim w content)) = Rejected r
         ∧ r ≠ Error (Some "ENOENT"))
  ∧ (getPM2State w = Rejected r → sendPM2Status w = (Rejected r, [])).
Proof.
  split.
  - unfold getPM2State.
    destruct (fs_readFile w _) as [content|r0]; cbn [then_].
    + destruct (pidusage_stat w _) as [[u|]|e] eqn:E; cbn [catch_ then_].
      * split; [done|]. intros [?|(? & [= <-] & ? & _)]; congruence.
      * split; [done|]. intros [?|(? & [= <-] & ? & _)]; congruence.
      * destruct (is_ENOENT e) eqn:Ee; cbn [then_].
        -- split; [done|]. intros [?|(c & [= <-] & Hs & Hne)]; [done|].
           rewrite E in Hs. injection Hs as ->. destruct Hne.
           unfold is_ENOENT in Ee. destruct r as [|[code|]]; try done.
           by apply String.eqb_eq in Ee as ->.
        -- split.
           ++ intros [= <-]. right. exists content. split_and!; [done..|].
              intros ->. by vm_compute in Ee.
           ++ intros [?|(c & [= <-] & Hs & _)]; [done|]. congruence.
    + split; [intros [= ->]; by left|].
      intros [[= ->]|(? & ? & _)]; done.
  - intros H. unfold sendPM2Status. by rewrite H.
Qed.

Lemma supervisor_state_rejections_witness :
  sendPM2Status Cases.failing = (Rejected Cases.denied, []).
Proof.
  apply (proj2 (supervisor_state_rejections Cases.failing Cases.denied)).
  apply (proj1 (supervisor_state_rejections Cases.failing Cases.denied)).
  right. exists "4242". split_and!; [reflexivity | reflexivity | discriminate].
Defined.

Lemma sendProcessList_listed (w : World) (processList : list processEntry) :
  pm2_listAsync w = Fulfilled processList →
  let processMap := generateProcessMap processList in
  sendProcessList w
  = ZabbixDataProvider.send w
      (flat_map (entries_of processMap) (JS.keys processMap)).
Proof.
  intros Hlist processMap.
  assert (Hm : ∀ id, In id (JS.keys processMap) →
            ∃ st res, JS.get processMap id = Some st
                      ∧ ProcessState.resources st = Some res).
  { intros id Hid. apply keys_get in Hid as [st Hst]. exists st.
    destruct (generateProcessMap_complete _ _ _ Hst) as (res & _ & ? & _).
    eauto. }
  assert (Hnd : NoDup (JS.keys processMap)).
  { unfold processMap. rewrite generateProcessMap_keys.
    apply generateProcessMap_wf. }
  pose proof (addProcesses_fresh processMap (JS.keys processMap) JS.empty
                Hnd Hm (λ _ _ _ _ _, eq_refl)) as Hadd.
  cbn [app JS.empty] in Hadd.
  unfold sendProcessList, getProcessMap. rewrite Hlist. cbn [then_].
  fold processMap. by rewrite Hadd.
Qed.

(** X10: the outcomes of [sendProcessList].  A rejected list query
    rejects it with the same reason and nothing reaches the sender.
    Otherwise exactly one batch reaches the sender, and the sender's
    answer is the outcome, so a refusal by the sender is passed on; the
    batch has four keys per identity, and for an empty process list it
    is the empty batch, sent all the same. *)
Theorem sendProcessList_outcomes (w : World) :
  (∀ r, pm2_listAsync w = Rejected r →
        sendProcessList w = (Rejected r, []))
  ∧ (∀ processList,
       pm2_listAsync w = Fulfilled processList →
       ∃ dataObject,
         sendProcessList w = (sender_send w dataObject, [dataObject])
         ∧ List.length (JS.keys dataObject)
           = (4 * List.length (JS.keys (generateProcessMap processList)))%nat)
  ∧ (pm2_listAsync w = Fulfilled [] →
     sendProcessList w = (sender_send w JS.empty, [JS.empty])).
Proof.
  split_and!.
  - intros r Hr. unfold sendProcessList, getProcessMap. by rewrite Hr.
  - intros processList Hlist.
    rewrite (sendProcessList_listed w processList Hlist). cbn zeta.
    eexists. split; [reflexivity|].
    assert (Hm : ∀ id, In id (JS.keys (generateProcessMap processList)) →
              ∃ st res, JS.get (generateProcessMap processList) id = Some st
                        ∧ ProcessState.resources st = Some res).
    { intros id Hid. apply keys_get in Hid as [st Hst]. exists st.
      destruct (generateProcessMap_complete _ _ _ Hst) as (res & _ & ? & _).
      eauto. }
    rewrite process_batch_keys, entries_keys by done.
    generalize (JS.keys (generateProcessMap processList)) as ids.
    induction ids as [|id ids IH]; [done|].
    cbn [flat_map]. rewrite length_app, IH, length_map. cbn [List.length].
    lia.
  - intros Hlist. by rewrite (sendProcessList_listed w [] Hlist).
Qed.

Lemma sendProcessList_outcomes_witness :
  sendProcessList Cases.failing = (Rejected Cases.refused, []).
Proof.
  exact (proj1 (sendProcessList_outcomes Cases.failing) Cases.refused eq_refl).
Defined.

End Daemon.

(** ** The monitor at work *)

Section Monitoring.
Import PM2Tracker ZabbixDataProvider PM2ZabbixMonitor.

(** X11: real-time forwarding.  On a monitor whose tracker has its
    handler installed, a bus event whose status equals the cached one
    sends nothing; any other sends, once per listener, the batch of the
    single key "pm2.processes[" + identity + ",status]" holding the new
    status.  Either way the cache takes the new state, and the
    discovery items and the timers stay as they are. *)
Theorem realtime_forwarding (this : PM2ZabbixMonitor.t) (event : busEvent) :
  bus_handlers (_tracker this) ≠ 0 →
  let id := getProcessID (process event) in
  let previous := JS.get (_processes (_tracker this)) id in
  (receive this event).2
  = (if bool_decide (ProcessState.status <$> previous
                     = Some (proc_status (process event)))
     then []
     else replicate (listeners this)
            [ ("pm2.processes[" +:+ id +:+ "," +:+ "status" +:+ "]",
               JS.VString (proc_status (process event))) ])
  ∧ JS.get (_processes (_tracker (receive this event).1)) id
    = Some (event_state (process event))
  ∧ _dataProvider (receive this event).1 = _dataProvider this
  ∧ timers (receive this event).1 = timers this.
Proof.
  intros Hn id previous. unfold receive.
  rewrite deliver_installed by done.
  destruct (_handleProcessEvent (_tracker this) event) as [tracker emitted] eqn:E.
  cbn [fst snd _tracker _dataProvider timers].
  assert (Ht : tracker = (_handleProcessEvent (_tracker this) event).1)
    by (by rewrite E).
  assert (He : emitted = (_handleProcessEvent (_tracker this) event).2)
    by (by rewrite E).
  split_and!; [|rewrite Ht, handle_processes; apply get_set_eq|done..].
  rewrite He. unfold _handleProcessEvent. cbn [snd]. fold id. fold previous.
  destruct previous as [old|]; cbn [fmap option_fmap option_map].
  - cbn [ProcessState.equals].
    change (ProcessState.status (event_state (process event)))
      with (proc_status (process event)).
    destruct (String.eqb_spec (proc_status (process event))
                (ProcessState.status old)) as [Heq|Hne]; cbn [negb].
    + rewrite bool_decide_true by (by rewrite Heq). done.
    + rewrite bool_decide_false by (intros [= ?]; by apply Hne).
      unfold forward. cbn [flat_map]. by rewrite app_nil_r.
  - rewrite bool_decide_false by done.
    unfold forward. cbn [flat_map]. by rewrite app_nil_r.
Qed.

Lemma realtime_forwarding_witness :
  (receive Cases.monitoring Sample.web0_stopping).2
  = [ [ ("pm2.processes[web-0,status]", JS.VString "stopping") ] ].
Proof.
  refine (proj1 (realtime_forwarding Cases.monitoring Sample.web0_stopping _)).
  discriminate.
Defined.

Lemma start_listeners w inflight this :
  listeners (PM2ZabbixMonitor.start w inflight this).1.2 = listeners this.
Proof.
  unfold PM2ZabbixMonitor.start.
  destruct (PM2Tracker.start w inflight (_tracker this)) as [[[[]|r] tr] em];
    done.
Qed.

(** X12: a monitor constructed without the [monitor] option, or with
    it off, only discovers: [start()] sends nothing, whatever the bus
    delivers meanwhile, arms no timer, and no later bus event makes it
    send. *)
Theorem discovery_only_is_silent
    (tracker : PM2Tracker.t) (dataProvider : ZabbixDataProvider.t)
    (opts : option options) (w : World) (inflight : list busEvent)
    (event : busEvent) :
  (∀ o, opts = Some o → monitor o = false) →
  let m := PM2ZabbixMonitor.new tracker dataProvider opts in
  (PM2ZabbixMonitor.start w inflight m).2 = []
  ∧ timers (PM2ZabbixMonitor.start w inflight m).1.2 = []
  ∧ (receive (PM2ZabbixMonitor.start w inflight m).1.2 event).2 = [].
Proof.
  intros Hoff m.
  assert (Hm : monitor (_options m) = false ∧ listeners m = 0 ∧ timers m = []).
  { unfold m, PM2ZabbixMonitor.new. destruct opts as [o|]; cbn.
    - by rewrite (Hoff o eq_refl).
    - done. }
  destruct Hm as (Hmon & Hl & Ht).
  assert (Hsilent : ∀ this emitted, listeners this = 0 → forward this emitted = []).
  { intros this emitted H0. unfold forward. rewrite H0.
    induction emitted as [|n emitted IH]; [done|]. exact IH. }
  split_and!.
  - unfold PM2ZabbixMonitor.start.
    destruct (PM2Tracker.start w inflight (_tracker m)) as [[[[]|r] tr] em];
      cbn [snd]; by apply Hsilent.
  - unfold PM2ZabbixMonitor.start.
    destruct (PM2Tracker.start w inflight (_tracker m)) as [[[[]|r] tr] em];
      cbn [fst snd timers]; rewrite ?Hmon, ?Ht; done.
  - unfold receive.
    destruct (PM2Tracker.deliver _ event) as [tr em]. cbn [snd].
    apply Hsilent. by rewrite start_listeners.
Qed.

Lemma discovery_only_is_silent_witness :
  (PM2ZabbixMonitor.start Sample.up [Sample.api7_online]
     (Sample.fresh_monitor false)).2 = [].
Proof.
  refine (proj1 (discovery_only_is_silent PM2Tracker.new
    (ZabbixDataProvider.new None)
    (Some {| monitor := false; processListInterval := None;
             processManagerInterval := None |})
    Sample.up [Sample.api7_online] Sample.web0_stopping _)).
  by intros o [= <-].
Defined.

(** X13: a monitor constructed in monitor mode has one listener on the
    tracker, and a fulfilled [start()] arms exactly two timers, the
    process list one first, each with its configured interval; an
    interval that is missing or 0 becomes 15000. *)
Theorem monitor_mode_arms_two_timers
    (tracker : PM2Tracker.t) (dataProvider : ZabbixDataProvider.t)
    (listInterval managerInterval : option N)
    (w : World) (inflight : list busEvent) :
  let m :=
    PM2ZabbixMonitor.new tracker dataProvider
      (Some {| monitor := true; processListInterval := listInterval;
               processManagerInterval := managerInterval |}) in
  let effective (interval : option N) : N :=
    match interval with
    | Some (Npos p) => Npos p
    | _ => 15000%N
    end in
  (PM2ZabbixMonitor.start w inflight m).1.1 = Fulfilled () →
  listeners (PM2ZabbixMonitor.start w inflight m).1.2 = 1
  ∧ timers (PM2ZabbixMonitor.start w inflight m).1.2
    = [ ProcessListTimer (effective listInterval);
        ProcessManagerTimer (effective managerInterval) ].
Proof.
  intros m effective Hok. split; [by rewrite start_listeners|].
  unfold PM2ZabbixMonitor.start in *.
  destruct (PM2Tracker.start w inflight (_tracker m)) as [[[[]|r] tr] em];
    [|done].
  cbn. by destruct listInterval as [[|?]|], managerInterval as [[|?]|].
Qed.

Lemma monitor_mode_arms_two_timers_witness :
  timers
    (PM2ZabbixMonitor.start Sample.up []
       (PM2ZabbixMonitor.new PM2Tracker.new (ZabbixDataProvider.new None)
          (Some {| monitor := true; processListInterval := Some 0%N;
                   processManagerInterval := Some 60000%N |}))).1.2
  = [ ProcessListTimer 15000; ProcessManagerTimer 60000 ].
Proof.
  exact (proj2 (monitor_mode_arms_two_timers PM2Tracker.new
    (ZabbixDataProvider.new None) (Some 0%N) (Some 60000%N) Sample.up []
    eq_refl)).
Defined.

(** X14: the monitor's [start()] settles as the tracker's does; when it
    is rejected, no discovery item has been added and no timer armed,
    in monitor mode too. *)
Theorem monitor_start_follows_tracker
    (w : World) (inflight : list busEvent) (this : PM2ZabbixMonitor.t) :
  (PM2ZabbixMonitor.start w inflight this).1.1
  = (PM2Tracker.start w inflight (_tracker this)).1.1
  ∧ _tracker (PM2ZabbixMonitor.start w inflight this).1.2
    = (PM2Tracker.start w inflight (_tracker this)).1.2
  ∧ (∀ r, (PM2ZabbixMonitor.start w inflight this).1.1 = Rejected r →
       _dataProvider (PM2ZabbixMonitor.start w inflight this).1.2
       = _dataProvider this
       ∧ timers (PM2ZabbixMonitor.start w inflight this).1.2 = timers this).
Proof.
  unfold PM2ZabbixMonitor.start.
  destruct (PM2Tracker.start w inflight (_tracker this)) as [[[[]|r] tr] em];
    cbn [fst snd _tracker _dataProvider timers]; split_and!; try done.
Qed.

End Monitoring.

(** ** The discovery list *)

Section DiscoveryList.
Import ZabbixDataProvider PM2ZabbixMonitor.

Lemma filter_all {A} (f : A → bool) l :
  Forall (λ x, f x = true) l → List.filter f l = l.
Proof.
  induction 1 as [|x l Hx _ IH]; [done|]. simpl. by rewrite Hx, IH.
Qed.

Lemma filter_idem {A} (f : A → bool) l :
  List.filter f (List.filter f l) = List.filter f l.
Proof.
  induction l as [|x l IH]; [done|]. simpl.
  destruct (f x) eqn:E; simpl; by rewrite ?E, IH.
Qed.

Lemma filter_comm {A} (f g : A → bool) l :
  List.filter f (List.filter g l) = List.filter g (List.filter f l).
Proof.
  induction l as [|x l IH]; [done|]. simpl.
  destruct (f x) eqn:Ef, (g x) eqn:Eg; simpl; by rewrite ?Ef, ?Eg, IH.
Qed.

Lemma filter_sublist {A} (f : A → bool) l : sublist (List.filter f l) l.
Proof.
  induction l as [|x l IH]; [done|]. simpl.
  destruct (f x); by constructor.
Qed.

(** X15: adding an item and then removing with that very item as the
    specification gives back the provider, provided no item it held
    matches: an item always matches itself. *)
Theorem add_then_remove_restores
    (this : ZabbixDataProvider.t) (discoveryItem : item) :
  Forall (λ held, ¬ spec_matches discoveryItem held) (_discoveryItems this) →
  removeDiscoveryItems (addDiscoveryItem this discoveryItem) discoveryItem
  = this.
Proof.
  intros Hnone. destruct this as [items].
  unfold removeDiscoveryItems, addDiscoveryItem. cbn [_discoveryItems] in *.
  f_equal. rewrite List.filter_app. cbn [List.filter].
  assert (Hself : removeMatching discoveryItem discoveryItem = false).
  { apply removeMatching_spec. by intros key v Hv. }
  rewrite Hself, app_nil_r. apply filter_all.
  eapply Forall_impl; [exact Hnone|]. intros held Hno. cbn in Hno.
  destruct (removeMatching discoveryItem held) eqn:E; [done|].
  by apply removeMatching_spec in E.
Qed.

Lemma add_then_remove_restores_witness :
  removeDiscoveryItems
    (addDiscoveryItem {| _discoveryItems := [ [ ("{#PROCESS_ID}", "web-1");
                                                ("{#PROCESS_NAME}", "web") ] ] |}
       [ ("{#PROCESS_ID}", "web-0"); ("{#PROCESS_NAME}", "web") ])
    [ ("{#PROCESS_ID}", "web-0"); ("{#PROCESS_NAME}", "web") ]
  = {| _discoveryItems := [ [ ("{#PROCESS_ID}", "web-1");
                              ("{#PROCESS_NAME}", "web") ] ] |}.
Proof.
  apply add_then_remove_restores. repeat constructor.
  intros Hm. by specialize (Hm "{#PROCESS_ID}" "web-0" eq_refl).
Defined.

(** X16: removal only ever drops items: what is left is a sublist of
    what was there, in the same order; removing twice with one
    specification is removing once, and removals with two
    specifications can be done in either order. *)
Theorem removal_composes
    (this : ZabbixDataProvider.t) (spec1 spec2 : item) :
  sublist (_discoveryItems (removeDiscoveryItems this spec1))
          (_discoveryItems this)
  ∧ removeDiscoveryItems (removeDiscoveryItems this spec1) spec1
    = removeDiscoveryItems this spec1
  ∧ removeDiscoveryItems (removeDiscoveryItems this spec1) spec2
    = removeDiscoveryItems (removeDiscoveryItems this spec2) spec1.
Proof.
  unfold removeDiscoveryItems. cbn [_discoveryItems]. split_and!.
  - apply filter_sublist.
  - by rewrite filter_idem.
  - by rewrite filter_comm.
Qed.

(** X17: on the items [start()] registers, removing by
    "{#PROCESS_ID}" drops exactly the items of that identity, and
    removing by "{#PROCESS_NAME}" drops every instance of that name,
    the other items staying in order. *)
Theorem removal_by_macro
    (processes : list (string * ProcessState.t)) (target : string) :
  let registered :=
    {| _discoveryItems := map (λ p, discoveryItem p.1 p.2) processes |} in
  _discoveryItems
    (removeDiscoveryItems registered [ ("{#PROCESS_ID}", target) ])
  = map (λ p, discoveryItem p.1 p.2)
        (List.filter (λ p, negb (String.eqb p.1 target)) processes)
  ∧ _discoveryItems
      (removeDiscoveryItems registered [ ("{#PROCESS_NAME}", target) ])
    = map (λ p, discoveryItem p.1 p.2)
          (List.filter
             (λ p, negb (String.eqb (ProcessState.name p.2) target))
             processes).
Proof.
  cbn zeta. unfold removeDiscoveryItems. cbn [_discoveryItems]. split.
  - induction processes as [|[id st] ps IH]; [done|].
    cbn [map List.filter fst snd].
    replace (removeMatching [("{#PROCESS_ID}", target)] (discoveryItem id st))
      with (negb (String.eqb id target)).
    + destruct (String.eqb id target); cbn [negb map]; by rewrite IH.
    + rewrite (String.eqb_sym id target). vm_compute JS.keys.
      unfold removeMatching. vm_compute JS.keys. cbn.
      by rewrite andb_true_r.
  - induction processes as [|[id st] ps IH]; [done|].
    cbn [map List.filter fst snd].
    replace (removeMatching [("{#PROCESS_NAME}", target)] (discoveryItem id st))
      with (negb (String.eqb (ProcessState.name st) target)).
    + destruct (String.eqb _ target); cbn [negb map]; by rewrite IH.
    + rewrite (String.eqb_sym _ target).
      unfold removeMatching. vm_compute JS.keys. cbn.
      by rewrite andb_true_r.
Qed.

End DiscoveryList.

(** ** Discovery follows the cache at start *)

Section Registration.
Import PM2Tracker ZabbixDataProvider PM2ZabbixMonitor.

Lemma flat_map_entries {V B} (o : JS.object V) (f : string → V → B)
    (g : string → option V) :
  (∀ k v, In (k, v) o → g k = Some v) →
  flat_map (λ k, match g k with Some v => [f k v] | None => [] end) (map fst o)
  = map (λ p, f p.1 p.2) o.
Proof.
  induction o as [|[k v] o IH]; intros Hg; [done|].
  cbn [map flat_map fst snd]. rewrite (Hg k v) by (by left). cbn [app].
  f_equal. apply IH. intros k' v' Hin. apply Hg. by right.
Qed.

(** X18: a fulfilled [start()] appends to the discovery items one item
    per entry of the cached map, in the order of the cache, each with
    the entry's identity and name; this holds for every process list,
    repeated identities included. *)
Theorem start_registers_cached_processes
    (w : World) (inflight : list busEvent) (this : PM2ZabbixMonitor.t) :
  (PM2ZabbixMonitor.start w inflight this).1.1 = Fulfilled () →
  let after := (PM2ZabbixMonitor.start w inflight this).1.2 in
  _discoveryItems (_dataProvider after)
  = _discoveryItems (_dataProvider this)
    ++ map (λ p, [ ("{#PROCESS_ID}", p.1);
                   ("{#PROCESS_NAME}", ProcessState.name p.2) ])
           (getCachedProcessMap (_tracker after)).
Proof.
  intros Hok after. unfold after, PM2ZabbixMonitor.start in *.
  destruct (PM2Tracker.start w inflight (_tracker this))
    as [[started tracker] emitted] eqn:E.
  destruct started as [[]|r]; [|done].
  cbn [fst snd _dataProvider _tracker].
  destruct (start_fulfilled w inflight (_tracker this)) as (l & _ & Hmap & _);
    [by rewrite E|].
  rewrite E in Hmap. cbn [fst snd] in Hmap.
  rewrite registerProcesses_items. f_equal.
  unfold getCachedProcessMap. rewrite Hmap, generateProcessMap_keys.
  apply (flat_map_entries _ discoveryItem).
  intros k v Hin. apply get_In_wf; [apply generateProcessMap_wf | done].
Qed.

Lemma start_registers_cached_processes_witness :
  _discoveryItems
    (_dataProvider
       (PM2ZabbixMonitor.start
          (Sample.with_list [Sample.web0; Sample.web1; Sample.web0_stopped]
             Sample.up)
          [] (Sample.fresh_monitor false)).1.2)
  = [ [ ("{#PROCESS_ID}", "web-0"); ("{#PROCESS_NAME}", "web") ];
      [ ("{#PROCESS_ID}", "web-1"); ("{#PROCESS_NAME}", "web") ] ].
Proof.
  exact (start_registers_cached_processes
           (Sample.with_list [Sample.web0; Sample.web1; Sample.web0_stopped]
              Sample.up)
           [] (Sample.fresh_monitor false) eq_refl).
Defined.

(** X19: [equals] compares statuses and nothing else: it is reflexive,
    symmetric and transitive on states, two states with one status are
    equal whatever their name, resources, restarts and pid, and no
    state equals [undefined]. *)
Theorem equals_is_status_equivalence :
  (∀ a, ProcessState.equals a None = false)
  ∧ (∀ a b, ProcessState.equals a (Some b) = true
            ↔ ProcessState.status a = ProcessState.status b)
  ∧ (∀ a, ProcessState.equals a (Some a) = true)
  ∧ (∀ a b, ProcessState.equals a (Some b) = ProcessState.equals b (Some a))
  ∧ (∀ a b c,
       ProcessState.equals a (Some b) = true →
       ProcessState.equals b (Some c) = true →
       ProcessState.equals a (Some c) = true).
Proof.
  assert (Hiff : ∀ a b, ProcessState.equals a (Some b) = true
                        ↔ ProcessState.status a = ProcessState.status b).
  { intros a b. unfold ProcessState.equals. rewrite String.eqb_eq.
    split; congruence. }
  split_and!; [done | exact Hiff | | |].
  - intros a. by apply Hiff.
  - intros a b. unfold ProcessState.equals. apply String.eqb_sym.
  - intros a b c Hab Hbc. apply Hiff. apply Hiff in Hab, Hbc. congruence.
Qed.

End Registration.

(** ** Discovery on a list of PM2 *)

Section DiscoveryData.
Import PM2Tracker ZabbixDataProvider PM2ZabbixMonitor.

(** PM2 numbers its processes: no [pm_id] twice means no identity
    twice. *)
Lemma distinct_pm_ids_distinct_identities (processList : list processEntry) :
  NoDup (map entry_pm_id processList) →
  NoDup (map getProcessID processList).
Proof.
  induction processList as [|e l IH]; cbn [map];
    [intros _; apply NoDup_nil_2|].
  rewrite !NoDup_cons. intros [Hfresh Hnd]. split; [|by apply IH].
  intros Hin. apply Hfresh.
  apply list_elem_of_In, in_map_iff in Hin as (e' & Heq & He').
  apply list_elem_of_In, in_map_iff. exists e'. split; [|done].
  unfold getProcessID in Heq.
  apply app_dash_inj in Heq as [_ Hp]; auto using pretty_N_no_dash.
  by apply (inj pretty) in Hp.
Qed.

(** C5: for every initial process list of PM2, in which no [pm_id]
    occurs twice, once [start()] has fulfilled the discovery data is
    the envelope whose [data] holds the items the provider was
    constructed with, none in monitor.js, and then, in the list's
    order, one item per listed process with exactly the two keys
    "{#PROCESS_ID}", holding name + "-" + pm_id, and "{#PROCESS_NAME}",
    holding the name. *)
Theorem discovery_data_after_start
    (w : World) (inflight : list busEvent) (this : PM2ZabbixMonitor.t)
    (processList : list processEntry) :
  (PM2ZabbixMonitor.start w inflight this).1.1 = Fulfilled () →
  pm2_listAsync w = Fulfilled processList →
  NoDup (map entry_pm_id processList) →
  let items :=
    map (λ e, [ ("{#PROCESS_ID}",
                 entry_name e +:+ "-" +:+ pretty (entry_pm_id e));
                ("{#PROCESS_NAME}", entry_name e) ])
        processList in
  let discovered :=
    getDiscoveryData
      (_dataProvider (PM2ZabbixMonitor.start w inflight this).1.2) in
  discovered = {| data := _discoveryItems (_dataProvider this) ++ items |}
  ∧ (_dataProvider this = ZabbixDataProvider.new None →
     discovered = {| data := items |})
  ∧ List.length items = List.length processList.
Proof.
  intros Hok Hlist Hnd items discovered.
  assert (H : discovered
              = {| data := _discoveryItems (_dataProvider this) ++ items |}).
  { apply discovery_lists_each_process; [done..|].
    by apply distinct_pm_ids_distinct_identities. }
  split_and!; [done | | apply length_map].
  intros Hnew. rewrite H, Hnew. done.
Qed.

Lemma discovery_data_after_start_witness :
  getDiscoveryData
    (_dataProvider
       (PM2ZabbixMonitor.start Sample.up [] (Sample.fresh_monitor false)).1.2)
  = {| data := [ [ ("{#PROCESS_ID}", "web-0"); ("{#PROCESS_NAME}", "web") ];
                 [ ("{#PROCESS_ID}", "web-1"); ("{#PROCESS_NAME}", "web") ] ] |}.
Proof.
  refine (proj1 (proj2 (discovery_data_after_start Sample.up []
            (Sample.fresh_monitor false) [Sample.web0; Sample.web1]
            eq_refl eq_refl _)) eq_refl).
  vm_compute.
  repeat constructor; rewrite ?list_elem_of_In; simpl; intuition discriminate.
Defined.

End DiscoveryData.
